(** * URL and e-mail suspicious checker

    A shallow embedding of the detection logic of
    [url_redirect_visualizer_full.py] ([check_url], [check_email]) and of the
    analysis run of [SuspiciousChecker.analyze_input] (dispatch, status
    buckets, history file), with the properties that the specification
    states about them.

    Python values are modelled as follows.
    - A [str] is the list of its code points ([N]).
    - An [int] is a [Z].
    - Of the window, the attribute [results] and the three dashboard
      counters are kept; the table widget, which shows the same four
      fields of every row, is left out.  The History and Export buttons,
      the animated label and the index of the slideshow are modelled
      after the analysis run; layout, styling, timers and the loading of
      the images are not.
    - The library functions the program calls ([urllib.parse.urlparse],
      [re.match], [re.search], [str.strip], ...) are modelled after
      CPython 3.11.  What they do on ASCII is written out; the Unicode
      tables behind them, and the validation of a bracketed IPv6 host, are
      left open as the fields of the class [Runtime], so that every theorem
      holds whatever these tables are.
    - The history file is the frame that [to_csv] wrote, or a content that
      cannot be read.  What [pandas.read_csv] makes of a file that was
      written, and which values [QTableWidgetItem] takes besides a [str],
      are left open as the fields of the class [Toolkit]: pandas infers
      the values from the text of the file and does not always give back
      what was written.  Writing the file can fail. *)

From Stdlib Require Import List ZArith NArith Bool String Ascii Lia DecimalString.
Import ListNotations.

(** ** Python strings *)

(** A code point, and a string of them. *)
Definition char : Type := N.
Definition str : Type := list char.

Module Str.
Local Open Scope N_scope.

(** A string literal of the source. *)
Definition lit (s : string) : str := map N_of_ascii (list_ascii_of_string s).

(** A one-character literal of the source. *)
Definition chr (s : string) : char :=
  match s with
  | String a _ => N_of_ascii a
  | EmptyString => 0
  end.

Definition eqb (s t : str) : bool :=
  if list_eq_dec N.eq_dec s t then true else false.

(** Truth value of a string: non-empty. *)
Definition truthy (s : str) : bool :=
  match s with
  | [] => false
  | _ :: _ => true
  end.

Definition isascii (c : char) : bool := (c <? 128)%N.

Definition between (lo hi c : char) : bool := ((lo <=? c) && (c <=? hi))%N.

Definition ascii_isupper (c : char) : bool := between 65 90 c.
Definition ascii_islower (c : char) : bool := between 97 122 c.
Definition ascii_isalpha (c : char) : bool := ascii_isupper c || ascii_islower c.
Definition ascii_isdigit (c : char) : bool := between 48 57 c.

(** Lower-casing of the letters A-Z; every other code point is kept. *)
Definition ascii_tolower (c : char) : char :=
  if ascii_isupper c then (c + 32)%N else c.

Fixpoint dropwhile (p : char -> bool) (s : str) : str :=
  match s with
  | [] => []
  | c :: s' => if p c then dropwhile p s' else s
  end.

(** [needle in s] for a one-character needle. *)
Definition contains (c : char) (s : str) : bool := existsb (N.eqb c) s.

Fixpoint startswith (prefix s : str) : bool :=
  match prefix, s with
  | [], _ => true
  | _ :: _, [] => false
  | p :: prefix', c :: s' => (p =? c)%N && startswith prefix' s'
  end.

Definition endswith (suffix s : str) : bool := startswith (rev suffix) (rev s).

(** [s.find(c)]: the index of the first occurrence, [None] for -1. *)
Fixpoint find (c : char) (s : str) : option nat :=
  match s with
  | [] => None
  | d :: s' => if (c =? d)%N then Some O else option_map S (find c s')
  end.

(** [s.split(sep)] for a one-character separator. *)
Fixpoint split (sep : char) (s : str) : list str :=
  match s with
  | [] => [[]]
  | c :: s' =>
      if (c =? sep)%N then [] :: split sep s'
      else match split sep s' with
           | [] => [[c]]
           | w :: ws => (c :: w) :: ws
           end
  end.

(** [sep.join(l)]. *)
Fixpoint join (sep : str) (l : list str) : str :=
  match l with
  | [] => []
  | [s] => s
  | s :: l' => s ++ sep ++ join sep l'
  end.

End Str.

Notation "'s!' x" := (Str.lit x) (at level 5, x at level 0, format "'s!' x").

(** ** What is left open of the Python runtime *)

Class Runtime : Type := {
  (** [str.isspace] on a code point above 127. *)
  unicode_isspace : N -> bool;
  (** Whether [\w] matches a code point above 127 (alphanumeric). *)
  unicode_isalnum : N -> bool;
  (** Whether [\d] matches a code point above 127 (decimal digit). *)
  unicode_isdecimal : N -> bool;
  (** Whether [urllib.parse._checknetloc] accepts a netloc that is not
      ASCII (the check of its NFKC normal form); [false] is ValueError. *)
  nfkc_netloc_ok : str -> bool;
  (** Whether [urllib.parse._check_bracketed_netloc] accepts a netloc with
      both brackets (an IPv6 or IPvFuture host); [false] is ValueError. *)
  bracketed_netloc_ok : str -> bool
}.

Module Space.
Local Open Scope N_scope.

Section WithRuntime.
Context {R : Runtime}.

Definition isspace (c : N) : bool :=
  if Str.isascii c then Str.between 9 13 c || Str.between 28 32 c
  else unicode_isspace c.

Definition lstrip (s : str) : str := Str.dropwhile isspace s.
Definition rstrip (s : str) : str := rev (Str.dropwhile isspace (rev s)).

(** [s.strip()]. *)
Definition strip (s : str) : str := rstrip (lstrip s).

End WithRuntime.
End Space.

(** ** Regular expressions: [re.match] and [re.search] *)

Module Re.
Local Open Scope N_scope.

(** A member of a bracketed set. *)
Inductive atom : Type :=
| ALit (c : N)      (* a literal character *)
| AWord             (* \w *)
| ADigit.           (* \d *)

Inductive regex : Type :=
| Eps
| Chr (c : N)               (* a literal character, escaped or not *)
| In_ (set : list atom)     (* [...]; also \w and \d on their own *)
| Cat (r1 r2 : regex)
| Alt (r1 r2 : regex)       (* r1|r2 *)
| Star (r : regex)
| Bol                       (* ^ *)
| Eol.                      (* $ *)

(** r? , r+ , r{n,} and a literal word. *)
Definition Opt (r : regex) : regex := Alt r Eps.
Definition Plus (r : regex) : regex := Cat r (Star r).

Fixpoint AtLeast (n : nat) (r : regex) : regex :=
  match n with
  | O => Star r
  | S n' => Cat r (AtLeast n' r)
  end.

Definition Word (w : string) : regex :=
  fold_right (fun c r => Cat (Chr c) r) Eps (Str.lit w).

Fixpoint AnyOf (rs : list regex) : regex :=
  match rs with
  | [] => In_ []
  | [r] => r
  | r :: rs' => Alt r (AnyOf rs')
  end.

Definition Digit : regex := In_ [ADigit].

(** The code points above 127 that IGNORECASE identifies with an ASCII
    letter: dotted capital I and dotless i with i, the Kelvin sign with k,
    long s with s. *)
Definition ignorecase_extra (p : N) : list N :=
  if (p =? 105)%N then [304; 305]%N
  else if (p =? 107)%N then [8490]%N
  else if (p =? 115)%N then [383]%N
  else [].

(** A literal [p] of the pattern (ASCII) against a character [c] of the
    input; [ic] is the IGNORECASE flag. *)
Definition chr_eq (ic : bool) (p c : N) : bool :=
  if ic && Str.ascii_isalpha p then
    (Str.ascii_tolower c =? Str.ascii_tolower p)%N
    || existsb (N.eqb c) (ignorecase_extra (Str.ascii_tolower p))
  else (c =? p)%N.

Section WithRuntime.
Context {R : Runtime}.

Definition isdigit (c : N) : bool :=
  if Str.isascii c then Str.ascii_isdigit c else unicode_isdecimal c.

Definition isword (c : N) : bool :=
  if Str.isascii c then Str.ascii_isalpha c || Str.ascii_isdigit c || (c =? 95)%N
  else unicode_isalnum c.

Definition atom_match (ic : bool) (a : atom) (c : N) : bool :=
  match a with
  | ALit p => chr_eq ic p c
  | AWord => isword c
  | ADigit => isdigit c
  end.

(** [accept ic total r s k]: some prefix of [s] matches [r] and [k]
    accepts what follows it.  [total] is the length of the whole subject
    string, by which [^] recognises its start. *)
Fixpoint accept (ic : bool) (total : nat) (r : regex) (s : str)
         (k : str -> bool) {struct r} : bool :=
  match r with
  | Eps => k s
  | Chr p =>
      match s with
      | c :: s' => chr_eq ic p c && k s'
      | [] => false
      end
  | In_ set =>
      match s with
      | c :: s' => existsb (fun a => atom_match ic a c) set && k s'
      | [] => false
      end
  | Cat r1 r2 => accept ic total r1 s (fun s' => accept ic total r2 s' k)
  | Alt r1 r2 => accept ic total r1 s k || accept ic total r2 s k
  | Star r1 =>
      (fix loop (fuel : nat) (s : str) {struct fuel} : bool :=
         match fuel with
         | S fuel' =>
             accept ic total r1 s
               (fun s' => (List.length s' <? List.length s)%nat && loop fuel' s')
         | O => false
         end || k s) (List.length s) s
  | Bol => (List.length s =? total)%nat && k s
  | Eol =>
      match s with
      | [] => k s
      | [c] => (c =? 10)%N && k s
      | _ => false
      end
  end.

(** [re.match(r, s)] is not None: a match at the start of [s]. *)
Definition re_match (ic : bool) (r : regex) (s : str) : bool :=
  accept ic (List.length s) r s (fun _ => true).

Fixpoint search_from (ic : bool) (total : nat) (r : regex) (s : str) : bool :=
  accept ic total r s (fun _ => true)
  || match s with
     | [] => false
     | _ :: s' => search_from ic total r s'
     end.

(** [re.search(r, s)] is not None: a match somewhere in [s]. *)
Definition re_search (ic : bool) (r : regex) (s : str) : bool :=
  search_from ic (List.length s) r s.

End WithRuntime.
End Re.

Notation "'c!' x" := (Str.chr x) (at level 5, x at level 0, format "'c!' x").

(** ** Exceptions *)

(** The exceptions that the library calls of the program raise:
    [ValueError] from [urlparse], whatever [pandas.read_csv] raises on a
    file that it cannot read or parse, [OSError] from [to_csv] on a path
    that cannot be written, and [TypeError] from [QTableWidgetItem] on a
    value that it does not take. *)
Inductive exception : Type :=
| ValueError
| ReadError
| OSError
| TypeError.

(** What a call that may raise comes to. *)
Inductive outcome (A : Type) : Type :=
| Return (a : A)
| Raise (e : exception).
Arguments Return {A} a.
Arguments Raise {A} e.

(** Sequencing, and [try: body / except: handler]. *)
Definition bind {A B : Type} (m : outcome A) (f : A -> outcome B) : outcome B :=
  match m with
  | Return a => f a
  | Raise e => Raise e
  end.

Definition try_except {A : Type} (body : outcome A)
           (handler : exception -> outcome A) : outcome A :=
  match body with
  | Return a => Return a
  | Raise e => handler e
  end.

Notation "x <- m ;; k" := (bind m (fun x => k))
  (at level 61, m at next level, right associativity).

(** ** [urllib.parse.urlparse] *)

Module UrlParse.
Local Open Scope N_scope.

(** Of the six components of a parse result, the two that the program
    reads. *)
Record ParseResult : Type := { scheme : str; netloc : str }.

(** Membership in [scheme_chars]. *)
Definition scheme_char (c : N) : bool :=
  Str.ascii_isalpha c || Str.ascii_isdigit c
  || (c =? c!"+") || (c =? c!"-") || (c =? c!".").

(** [url.lstrip(_WHATWG_C0_CONTROL_OR_SPACE)]: the code points 0 to 32. *)
Definition lstrip_c0 (url : str) : str := Str.dropwhile (fun c => c <=? 32) url.

(** Tab, carriage return and newline are removed wherever they are. *)
Definition remove_unsafe (url : str) : str :=
  filter (fun c => negb ((c =? 9) || (c =? 13) || (c =? 10))) url.

(** The scheme, lower-cased, and what follows its colon; an empty scheme
    when there is none. *)
Definition split_scheme (url : str) : str * str :=
  match Str.find c!":" url, url with
  | Some (S i), c0 :: _ =>
      if Str.isascii c0 && Str.ascii_isalpha c0
         && forallb scheme_char (firstn (S i) url)
      then (map Str.ascii_tolower (firstn (S i) url), skipn (S (S i)) url)
      else ([], url)
  | _, _ => ([], url)
  end.

Definition netloc_delim (c : N) : bool :=
  (c =? c!"/") || (c =? c!"?") || (c =? c!"#").

Fixpoint takewhile (p : N -> bool) (s : str) : str :=
  match s with
  | c :: s' => if p c then c :: takewhile p s' else []
  | [] => []
  end.

(** [_splitnetloc(url, 2)], the domain part only. *)
Definition splitnetloc (url : str) : str :=
  takewhile (fun c => negb (netloc_delim c)) (skipn 2 url).

(** The validation of a bracketed host, as CPython 3.11 has it in
    [_check_bracketed_netloc] with [ipaddress.ip_address]. *)

(** [s.partition(sep)] for a one-character separator: what is before the
    first separator, whether there is one, and what is after it. *)
Fixpoint partition (sep : N) (s : str) : str * bool * str :=
  match s with
  | [] => ([], false, [])
  | c :: s' =>
      if c =? sep then ([], true, s')
      else let '(before, found, after) := partition sep s' in
           (c :: before, found, after)
  end.

(** [s.rpartition(sep)[2]]: what follows the last separator, the whole
    string when there is none. *)
Definition after_last (sep : N) (s : str) : str :=
  fold_left (fun acc c => if c =? sep then [] else acc ++ [c]) s [].

(** [int(s, 10)] on decimal digits. *)
Definition decimal (s : str) : N :=
  fold_left (fun n c => 10 * n + (c - 48)) s 0.

(** Whether [IPv4Address._parse_octet] returns. *)
Definition octet_ok (s : str) : bool :=
  Str.truthy s
  && forallb Str.ascii_isdigit s
  && (List.length s <=? 3)%nat
  && (Str.eqb s s!"0" || negb (Str.startswith s!"0" s))
  && (decimal s <=? 255).

(** Whether [ipaddress.IPv4Address(s)] returns. *)
Definition ipv4_ok (s : str) : bool :=
  negb (Str.contains c!"/" s)
  && Str.truthy s
  && (List.length (Str.split c!"." s) =? 4)%nat
  && forallb octet_ok (Str.split c!"." s).

Definition hex_digit (c : N) : bool :=
  Str.ascii_isdigit c || Str.between 65 70 c || Str.between 97 102 c.

(** Whether [IPv6Address._parse_hextet] returns. *)
Definition hextet_ok (s : str) : bool :=
  Str.truthy s && forallb hex_digit s && (List.length s <=? 4)%nat.

Definition empty (s : str) : bool := negb (Str.truthy s).

(** Whether [IPv6Address._ip_int_from_string] returns on the parts of an
    address, once an IPv4 suffix has been replaced by its two hextets:
    at most nine parts; without an empty part between the ends, eight
    hextets; with one, which stands for the parts skipped by [::], an
    empty first part only right before it, an empty last part only right
    after it, and at most seven hextets. *)
Definition hextets_ok (parts : list str) : bool :=
  (List.length parts <=? 9)%nat
  && match filter (fun i => empty (nth i parts []))
             (seq 1 (List.length parts - 2)) with
     | [] => (List.length parts =? 8)%nat && forallb hextet_ok parts
     | [skip_index] =>
         let hi := firstn skip_index parts in
         let lo := skipn (S skip_index) parts in
         let hi := if empty (hd [] parts) then tl hi else hi in
         let lo := if empty (last parts []) then removelast lo else lo in
         (if empty (hd [] parts) then (List.length hi =? 0)%nat else true)
         && (if empty (last parts []) then (List.length lo =? 0)%nat else true)
         && (List.length hi + List.length lo <=? 7)%nat
         && forallb hextet_ok hi && forallb hextet_ok lo
     | _ => false
     end.

(** Whether [ipaddress.IPv6Address(s)] returns. *)
Definition ipv6_ok (s : str) : bool :=
  negb (Str.contains c!"/" s)
  && let '(addr, found, scope_id) := partition c!"%" s in
     (negb found || (Str.truthy scope_id && negb (Str.contains c!"%" scope_id)))
     && Str.truthy addr
     && let parts := Str.split c!":" addr in
        (3 <=? List.length parts)%nat
        && if Str.contains c!"." (last parts [])
           then ipv4_ok (last parts [])
                && hextets_ok (removelast parts ++ [s!"0"; s!"0"])
           else hextets_ok parts.

(** Whether [re.match(r"\Av[a-fA-F0-9]+\..+\Z", hostname)] matches. *)
Definition ipvfuture_ok (hostname : str) : bool :=
  match hostname with
  | c :: s =>
      (c =? c!"v")
      && Str.truthy (takewhile hex_digit s)
      && match Str.dropwhile hex_digit s with
         | d :: rest =>
             (d =? c!".") && Str.truthy rest
             && forallb (fun c => negb (c =? 10)) rest
         | [] => false
         end
  | [] => false
  end.

(** [_check_bracketed_host]: an IPvFuture address, or an address that
    [ipaddress.ip_address] takes and that is not an IPv4 address. *)
Definition check_bracketed_host (hostname : str) : bool :=
  if Str.startswith s!"v" hostname then ipvfuture_ok hostname
  else negb (ipv4_ok hostname) && ipv6_ok hostname.

(** [_check_bracketed_netloc]; [false] is ValueError. *)
Definition check_bracketed_netloc (netloc : str) : bool :=
  let hostname_and_port := after_last c!"@" netloc in
  let '(before_bracket, have_open_br, bracketed) :=
    partition c!"[" hostname_and_port in
  if have_open_br then
    if Str.truthy before_bracket then false
    else
      let '(hostname, _, port) := partition c!"]" bracketed in
      if Str.truthy port && negb (Str.startswith s!":" port) then false
      else check_bracketed_host hostname
  else
    let '(hostname, _, _) := partition c!":" hostname_and_port in
    check_bracketed_host hostname.

Section WithRuntime.
Context {R : Runtime}.

(** [_checknetloc]. *)
Definition checknetloc (netloc : str) : bool :=
  negb (Str.truthy netloc) || forallb Str.isascii netloc || nfkc_netloc_ok netloc.

Definition urlsplit (url : str) : outcome ParseResult :=
  let url := remove_unsafe (lstrip_c0 url) in
  let (scheme, url) := split_scheme url in
  if Str.startswith s!"//" url then
    let netloc := splitnetloc url in
    let open := Str.contains c!"[" netloc in
    let close := Str.contains c!"]" netloc in
    if (open && negb close) || (close && negb open) then Raise ValueError
    else if open && close && negb (bracketed_netloc_ok netloc) then Raise ValueError
    else if checknetloc netloc then Return {| scheme := scheme; netloc := netloc |}
    else Raise ValueError
  else Return {| scheme := scheme; netloc := [] |}.

(** [urlparse] splits the parameters off the path of what [urlsplit]
    returns; scheme and netloc are those of [urlsplit]. *)
Definition urlparse (url : str) : outcome ParseResult := urlsplit url.

End WithRuntime.
End UrlParse.

(** CPython 3.11 on ASCII strings: the bracketed hosts are validated as
    [_check_bracketed_netloc] does, and the fields for the code points
    above 127, which an ASCII input never reaches, are constant.  It
    serves to run the functions on ASCII inputs. *)
Definition ascii_runtime : Runtime :=
  {| unicode_isspace := fun _ => false;
     unicode_isalnum := fun _ => false;
     unicode_isdecimal := fun _ => false;
     nfkc_netloc_ok := fun _ => true;
     bracketed_netloc_ok := UrlParse.check_bracketed_netloc |}.

(** ** Detection logic *)

Module Patterns.
Import Re.

Definition Seq (rs : list regex) : regex := fold_right Cat Eps rs.

(** [http[s]?://\d+\.\d+\.\d+\.\d+] *)
Definition ip_address : regex :=
  Seq [Word "http"; Opt (In_ [ALit c!"s"]); Word "://";
       Plus Digit; Chr c!"."; Plus Digit; Chr c!"."; Plus Digit; Chr c!".";
       Plus Digit].

(** [(free|login|verify|update|secure|bank|paypal|confirm|account)] *)
Definition url_keywords : regex :=
  AnyOf (map Word ["free"; "login"; "verify"; "update"; "secure"; "bank";
                   "paypal"; "confirm"; "account"]%string).

(** [http[s]?://(bit\.ly|tinyurl\.com|goo\.gl|t\.co)] *)
Definition shortener : regex :=
  Seq [Word "http"; Opt (In_ [ALit c!"s"]); Word "://";
       AnyOf (map Word ["bit.ly"; "tinyurl.com"; "goo.gl"; "t.co"]%string)].

(** [[@]{1,}] *)
Definition at_sign : regex := AtLeast 1 (In_ [ALit c!"@"]).

(** [[\?\=\&]{3,}] *)
Definition symbols : regex :=
  AtLeast 3 (In_ [ALit c!"?"; ALit c!"="; ALit c!"&"]).

(** [goog1e|facebo0k|paypa1] *)
Definition lookalike : regex :=
  AnyOf (map Word ["goog1e"; "facebo0k"; "paypa1"]%string).

(** [^[\w\.-]+@[\w\.-]+\.\w+$] *)
Definition email : regex :=
  Seq [Bol; Plus (In_ [AWord; ALit c!"."; ALit c!"-"]); Chr c!"@";
       Plus (In_ [AWord; ALit c!"."; ALit c!"-"]); Chr c!".";
       Plus (In_ [AWord]); Eol].

(** [(admin|support|verify|noreply|security|alert)] *)
Definition email_keywords : regex :=
  AnyOf (map Word ["admin"; "support"; "verify"; "noreply"; "security";
                   "alert"]%string).

End Patterns.

Local Open Scope Z_scope.

(** The two local variables [score] and [issues] of a scorer. *)
Definition findings : Type := (Z * list str)%type.

(** [issues.append(label); score += points]. *)
Definition report (label : str) (points : Z) (acc : findings) : findings :=
  (fst acc + points, snd acc ++ [label]).

(** The end of both scorers: the cap at 10 and the label of a clean input. *)
Definition conclude (acc : findings) : findings :=
  let score := Z.min (fst acc) 10 in
  let issues := if score =? 0 then snd acc ++ [s!"No obvious issues found"]
                else snd acc in
  (score, issues).

Section Detection.
Context {R : Runtime}.
Import UrlParse.

Definition check_url (url : str) : findings :=
  let acc : findings := (0, []) in
  let acc :=
    match urlparse url with
    | Return parsed =>
        if negb (Str.truthy (scheme parsed)) || negb (Str.truthy (netloc parsed))
        then report s!"Invalid URL format" 5 acc
        else acc
    | Raise _ => report s!"Malformed URL" 5 acc
    end in
  let acc := if Re.re_match false Patterns.ip_address url
             then report s!"Contains IP address" 3 acc else acc in
  let acc := if Re.re_search true Patterns.url_keywords url
             then report s!"Suspicious keywords" 2 acc else acc in
  let acc := if Re.re_match false Patterns.shortener url
             then report s!"Shortened URL" 2 acc else acc in
  let acc := if Re.re_search false Patterns.at_sign url
             then report s!"Contains @ symbol" 2 acc else acc in
  let acc := if Re.re_search false Patterns.symbols url
             then report s!"Excessive symbols" 1 acc else acc in
  let acc := if Re.re_search true Patterns.lookalike url
             then report s!"Possible phishing domain" 3 acc else acc in
  conclude acc.

Definition check_email (email : str) : findings :=
  let acc : findings := (0, []) in
  let acc := if negb (Re.re_match false Patterns.email email)
             then report s!"Invalid email format" 5 acc else acc in
  let acc := if Re.re_search true Patterns.email_keywords email
             then report s!"Suspicious keywords" 3 acc else acc in
  let acc := if existsb (fun suffix => Str.endswith suffix email)
                  [s!".xyz"; s!".club"; s!".top"; s!".online"]
             then report s!"Suspicious TLD" 2 acc else acc in
  conclude acc.

End Detection.

(** ** The analysis run *)

Inductive status : Type := SAFE | POTENTIAL | SUSPICIOUS.

(** The text of a status as the program writes it, with its marker. *)
Definition status_text (st : status) : str :=
  match st with
  | SUSPICIOUS => s!"SUSPICIOUS " ++ [10060%N]
  | POTENTIAL => s!"POTENTIAL " ++ [9888%N; 65039%N]
  | SAFE => s!"SAFE " ++ [9989%N]
  end.

(** The status bucket of a score. *)
Definition classify (score : Z) : status :=
  if score >=? 5 then SUSPICIOUS
  else if score >? 0 then POTENTIAL
  else SAFE.

(** A row of the results: the keys Input, Issues, Score and Status. *)
Record row : Type := {
  Input : str;
  Issues : str;
  Score : Z;
  Status : str
}.

(** A value in a cell of a DataFrame: a [str], an [int], NaN, which
    stands for a missing value, or another value that [read_csv] infers, a
    float or a boolean, kept as the text that [str] gives for it. *)
Inductive cell : Type :=
| Text (s : str)
| Int (n : Z)
| Missing
| Other (repr : str).

(** A row of a DataFrame with the columns Input, Issues, Score and
    Status. *)
Record frame_row : Type := {
  Input_cell : cell;
  Issues_cell : cell;
  Score_cell : cell;
  Status_cell : cell
}.

(** [pd.DataFrame(self.results)]: the values of the dicts as they are. *)
Definition frame_of (r : row) : frame_row :=
  {| Input_cell := Text (Input r);
     Issues_cell := Text (Issues r);
     Score_cell := Int (Score r);
     Status_cell := Text (Status r) |}.

Definition DataFrame (results : list row) : list frame_row :=
  map frame_of results.

(** The file [history.csv]: the file that [to_csv] writes from a frame, or
    a content that [pandas.read_csv] cannot read or parse.  A file that
    can be read but has other columns than these four is not modelled. *)
Inductive csv_file : Type :=
| Table (df : list frame_row)
| Unreadable.

(** What is left open of pandas and of Qt. *)
Class Toolkit : Type := {
  (** [pandas.read_csv] on the file that [to_csv] wrote from a frame: the
      frame that it returns, whose values are inferred from the text of
      the file and need not be the values that were written, or the
      exception that it raises. *)
  read_back : list frame_row -> outcome (list frame_row);
  (** Whether [QTableWidgetItem(val)] takes a value that is neither a
      [str] nor NaN. *)
  item_accepts : cell -> bool
}.

Definition read_csv {T : Toolkit} (f : csv_file) : outcome (list frame_row) :=
  match f with
  | Table df => read_back df
  | Unreadable => Raise ReadError
  end.

(** [df.to_csv(path, index=False)], where [writable] tells whether the
    path can be written: the file that is written, or OSError.  A write
    that raises is taken to leave the file as it was, as one that fails
    on opening the file does. *)
Definition to_csv (df : list frame_row) (writable : bool) : outcome csv_file :=
  if writable then Return (Table df) else Raise OSError.

(** The state that a run reads and writes: the attributes [results] and
    the three dashboard cards of the window, the history file on disk
    ([None] when it does not exist), and whether its path can be
    written. *)
Record state : Type := {
  results : list row;
  safe_card : Z;
  risk_card : Z;
  suspicious_card : Z;
  history_file : option csv_file;
  history_writable : bool
}.

(** The counters and the rows that the loop of a run builds up. *)
Record tally : Type := {
  rows : list row;
  safe_count : Z;
  risk_count : Z;
  suspicious_count : Z
}.

Section Analysis.
Context {R : Runtime} {T : Toolkit}.

(** The scorer that an entry goes to. *)
Definition dispatch (entry : str) : findings :=
  if Str.contains c!"@" entry then check_email entry else check_url entry.

(** The row that the loop appends for an entry. *)
Definition entry_row (entry : str) : row :=
  let (score, issues) := dispatch entry in
  {| Input := entry;
     Issues := Str.join s!", " issues;
     Score := score;
     Status := status_text (classify score) |}.

(** One turn of the loop over the entries: a counter goes up by one and
    the row is appended. *)
Definition analyze_entry (t : tally) (entry : str) : tally :=
  let r := entry_row entry in
  let st := classify (Score r) in
  {| rows := rows t ++ [r];
     safe_count := safe_count t + (match st with SAFE => 1 | _ => 0 end);
     risk_count := risk_count t + (match st with POTENTIAL => 1 | _ => 0 end);
     suspicious_count :=
       suspicious_count t + (match st with SUSPICIOUS => 1 | _ => 0 end) |}.

(** The non-blank lines of the text, stripped. *)
Definition entries (text : str) : list str :=
  filter Str.truthy (map Space.strip (Str.split 10%N text)).

(** The end of a run, where the history file is rewritten: the rows of
    the existing file, when there is one and it can be read, followed by
    the new rows.  The handler covers the read and the concatenation; the
    write comes after it. *)
Definition append_history (new : list row) (file : option csv_file)
           (writable : bool) : outcome csv_file :=
  df <- match file with
        | Some existing =>
            try_except
              (df_existing <- read_csv existing ;;
               Return (df_existing ++ DataFrame new))
              (fun _ => Return (DataFrame new))
        | None => Return (DataFrame new)
        end ;;
  to_csv df writable.

(** [analyze_input]: the state that the call leaves and what the call
    comes to.  The results and the cards are set before the history file
    is touched, so they are set also when the write raises. *)
Definition analyze_input (text : str) (w : state) : state * outcome unit :=
  let text := Space.strip text in
  if negb (Str.truthy text) then (w, Return tt)
  else
    let t := fold_left analyze_entry (entries text)
               {| rows := []; safe_count := 0; risk_count := 0;
                  suspicious_count := 0 |} in
    match append_history (rows t) (history_file w) (history_writable w) with
    | Return file =>
        ({| results := rows t;
            safe_card := safe_count t;
            risk_card := risk_count t;
            suspicious_card := suspicious_count t;
            history_file := Some file;
            history_writable := history_writable w |}, Return tt)
    | Raise e =>
        ({| results := rows t;
            safe_card := safe_count t;
            risk_card := risk_count t;
            suspicious_card := suspicious_count t;
            history_file := history_file w;
            history_writable := history_writable w |}, Raise e)
    end.

End Analysis.

(** ** The rest of the window *)

(** *** The animated label *)

Module AnimatedLabel.

(** The attribute [_value] and the text of the label. *)
Record label : Type := { value : Z; text : str }.

(** [str(n)] for an [int]. *)
Definition str_of_int (n : Z) : str :=
  Str.lit (DecimalString.NilZero.string_of_int (Z.to_int n)).

Definition getValue (l : label) : Z := value l.

(** [setValue]: the first line of the text is kept as the title and the
    value is written under it. *)
Definition setValue (val : Z) (l : label) : label :=
  let parts := Str.split 10%N (text l) in
  let title := match parts with
               | title :: _ => title
               | [] => []
               end in
  {| value := val; text := title ++ [10%N] ++ str_of_int val |}.

End AnimatedLabel.

(** *** The History button *)

Module History.

(** The three counters of the loop of [show_history]. *)
Record counts : Type := {
  safe_count : Z;
  risk_count : Z;
  suspicious_count : Z
}.

(** [str(val)] for a value of a cell. *)
Definition str_of (val : cell) : str :=
  match val with
  | Text s => s
  | Int n => AnimatedLabel.str_of_int n
  | Missing => s!"nan"
  | Other repr => repr
  end.

(** The marker found in the text of the status picks the counter. *)
Definition count_row (c : counts) (s : str) : counts :=
  if Str.contains 10060%N s then
    {| safe_count := safe_count c; risk_count := risk_count c;
       suspicious_count := suspicious_count c + 1 |}
  else if Str.contains 9888%N s then
    {| safe_count := safe_count c; risk_count := risk_count c + 1;
       suspicious_count := suspicious_count c |}
  else
    {| safe_count := safe_count c + 1; risk_count := risk_count c;
       suspicious_count := suspicious_count c |}.

Section WithToolkit.
Context {T : Toolkit}.

(** [QTableWidgetItem(val)]: an item for a [str], TypeError for NaN, which
    is a float; for a value of another kind the toolkit decides. *)
Definition QTableWidgetItem (val : cell) : outcome unit :=
  match val with
  | Text _ => Return tt
  | Missing => Raise TypeError
  | _ => if item_accepts val then Return tt else Raise TypeError
  end.

(** One turn of the loop over the rows of the file: the four items of
    the row are made, in the order of the columns, and then the status is
    counted. *)
Definition show_row (c : counts) (entry : frame_row) : outcome counts :=
  item0 <- QTableWidgetItem (Input_cell entry) ;;
  item1 <- QTableWidgetItem (Issues_cell entry) ;;
  item2 <- QTableWidgetItem (Text (str_of (Score_cell entry))) ;;
  item3 <- QTableWidgetItem (Status_cell entry) ;;
  Return (count_row c (str_of (Status_cell entry))).

Fixpoint show_rows (df : list frame_row) (c : counts) : outcome counts :=
  match df with
  | [] => Return c
  | entry :: df => c' <- show_row c entry ;; show_rows df c'
  end.

(** [show_history]: the state that the call leaves and what the call
    comes to.  Nothing happens without a history file; otherwise the file
    is read and the items are made, outside any [try], and the cards get
    the counts of the rows once the loop is over.  The attribute
    [results] and the file are not written. *)
Definition show_history (w : state) : state * outcome unit :=
  match history_file w with
  | None => (w, Return tt)
  | Some file =>
      match (df <- read_csv file ;;
             show_rows df {| safe_count := 0; risk_count := 0;
                             suspicious_count := 0 |}) with
      | Return c =>
          ({| results := results w;
              safe_card := safe_count c;
              risk_card := risk_count c;
              suspicious_card := suspicious_count c;
              history_file := history_file w;
              history_writable := history_writable w |}, Return tt)
      | Raise e => (w, Raise e)
      end
  end.

End WithToolkit.

End History.

(** *** The Export CSV button *)

(** [export_csv]: [chosen] is the path that the file dialog returns, empty
    when it is cancelled.  The result is the path and the file that
    [to_csv] is asked to write there, [None] when nothing is written; the
    dialog is not opened when there are no results. *)
Definition export_csv (chosen : str) (w : state) : option (str * csv_file) :=
  match results w with
  | [] => None
  | _ :: _ =>
      if Str.truthy chosen then Some (chosen, Table (DataFrame (results w)))
      else None
  end.

(** *** The slideshow *)

Module Slideshow.
Section WithPixmap.
Variable pixmap : Type.

(** The attributes [images], [None] as long as it is not set, and
    [slideshow_index]. *)
Record slideshow : Type := {
  images : option (list pixmap);
  slideshow_index : Z
}.

(** [l[i]] on a list: a negative index counts from the end, and [None] is
    IndexError. *)
Definition getitem (l : list pixmap) (i : Z) : option pixmap :=
  let n := Z.of_nat (List.length l) in
  if (0 <=? i) && (i <? n) then nth_error l (Z.to_nat i)
  else if (- n <=? i) && (i <? 0) then nth_error l (Z.to_nat (n + i))
  else None.

(** What a tick of the timer comes to. *)
Inductive tick : Type :=
| Nothing                                  (* the early return *)
| Fades (s : slideshow) (next_pix : pixmap) (* the index moved, next_pix fades in *)
| IndexError.                              (* images[slideshow_index] raised *)

Definition next_slide (s : slideshow) : tick :=
  match images s with
  | None => Nothing
  | Some [] => Nothing
  | Some ((_ :: _) as l) =>
      let index := (slideshow_index s + 1) mod Z.of_nat (List.length l) in
      match getitem l index with
      | Some next_pix =>
          Fades {| images := images s; slideshow_index := index |} next_pix
      | None => IndexError
      end
  end.

End WithPixmap.

Arguments images {pixmap} s.
Arguments slideshow_index {pixmap} s.
Arguments getitem {pixmap} l i.
Arguments Nothing {pixmap}.
Arguments Fades {pixmap} s next_pix.
Arguments IndexError {pixmap}.
Arguments next_slide {pixmap} s.

End Slideshow.

(** * Properties *)

(** ** The accumulator of a scorer *)

Definition no_issues : str := s!"No obvious issues found".

(** What every rule keeps true of [score] and [issues]: the score is not
    negative, it is 0 exactly when no issue was reported, and the label of
    a clean input is not among the issues. *)
Definition tidy (acc : findings) : Prop :=
  0 <= fst acc /\ (fst acc = 0 <-> snd acc = []) /\ ~ In no_issues (snd acc).

(** The points that [check_url] adds with each of its labels. *)
Definition url_points (label : str) : Z :=
  if Str.eqb label s!"Invalid URL format" then 5
  else if Str.eqb label s!"Malformed URL" then 5
  else if Str.eqb label s!"Contains IP address" then 3
  else if Str.eqb label s!"Suspicious keywords" then 2
  else if Str.eqb label s!"Shortened URL" then 2
  else if Str.eqb label s!"Contains @ symbol" then 2
  else if Str.eqb label s!"Excessive symbols" then 1
  else if Str.eqb label s!"Possible phishing domain" then 3
  else 0.

Definition total_points (issues : list str) : Z :=
  fold_right (fun label n => url_points label + n) 0 issues.

(** The accumulator of [check_url] once its first rule has reported
    [first]: the issues start with [first], the label [other] is not among
    the later ones, and the score is 5 plus the points of the later ones. *)
Definition opened (first other : str) (acc : findings) : Prop :=
  exists more,
    snd acc = first :: more
    /\ ~ In other more
    /\ fst acc = 5 + total_points more
    /\ 0 <= total_points more.

(** The rows of the history file that a run keeps: those that reading
    it returns. *)
Definition existing_rows {T : Toolkit} (file : option csv_file)
  : list frame_row :=
  match file with
  | Some existing =>
      match read_csv existing with
      | Return df_existing => df_existing
      | Raise _ => []
      end
  | None => []
  end.

(** Texts that [read_csv] takes for a missing value by default. *)
Definition na_marker (s : str) : bool :=
  existsb (Str.eqb s)
    [s!"#N/A"; s!"#N/A N/A"; s!"#NA"; s!"-1.#IND"; s!"-1.#QNAN"; s!"-NaN";
     s!"-nan"; s!"1.#IND"; s!"1.#QNAN"; s!"<NA>"; s!"N/A"; s!"NA"; s!"NULL";
     s!"NaN"; s!"n/a"; s!"nan"; s!"null"].

Definition read_cell (val : cell) : cell :=
  match val with
  | Text s => if na_marker s then Missing else Text s
  | _ => val
  end.

(** A toolkit to run the window on the rows of the examples below, whose
    texts are not read as numbers or booleans: reading a file back gives
    the texts and the integers that were written, but for a text that is
    taken for a missing value, and an item is made of a [str] only. *)
Definition plain_toolkit : Toolkit :=
  {| read_back := fun df =>
       Return (map (fun r => {| Input_cell := read_cell (Input_cell r);
                                Issues_cell := read_cell (Issues_cell r);
                                Score_cell := read_cell (Score_cell r);
                                Status_cell := read_cell (Status_cell r) |}) df);
     item_accepts := fun _ => false |}.

(** States to run on: a window just opened with no history file, one
    next to a history file, and one whose history file can be neither
    read nor written (a directory of that name, say). *)
Definition fresh_state : state :=
  {| results := []; safe_card := 0; risk_card := 0; suspicious_card := 0;
     history_file := None; history_writable := true |}.

Definition earlier_row : row :=
  {| Input := s!"http://bit.ly/abc";
     Issues := s!"Shortened URL";
     Score := 2;
     Status := status_text POTENTIAL |}.

Definition stored_state (file : csv_file) : state :=
  {| results := []; safe_card := 0; risk_card := 0; suspicious_card := 0;
     history_file := Some file; history_writable := true |}.

Definition locked_state : state :=
  {| results := []; safe_card := 0; risk_card := 0; suspicious_card := 0;
     history_file := Some Unreadable; history_writable := false |}.

(** ** The scorers as tables of rules *)

(** A rule: whether it fires on the input, its label and its points. *)
Record rule : Type := { fires : bool; label : str; points : Z }.

(** The labels of the rules that fire, in the order of the rules, and the
    sum of their points. *)
Definition fired (rules : list rule) : list str :=
  map label (filter fires rules).

Definition fired_points (rules : list rule) : Z :=
  fold_right (fun r n => points r + n) 0 (filter fires rules).

(** [l] is [m] with some of its elements left out. *)
Inductive subsequence {A : Type} : list A -> list A -> Prop :=
| subsequence_nil : subsequence [] []
| subsequence_skip (x : A) (l m : list A) :
    subsequence l m -> subsequence l (x :: m)
| subsequence_take (x : A) (l m : list A) :
    subsequence l m -> subsequence (x :: l) (x :: m).

(** The labels of [check_url] and of [check_email] in the order of their
    rules. *)
Definition url_labels : list str :=
  [s!"Invalid URL format"; s!"Malformed URL"; s!"Contains IP address";
   s!"Suspicious keywords"; s!"Shortened URL"; s!"Contains @ symbol";
   s!"Excessive symbols"; s!"Possible phishing domain"].

Definition email_labels : list str :=
  [s!"Invalid email format"; s!"Suspicious keywords"; s!"Suspicious TLD"].

(** The points that [check_email] adds with each of its labels. *)
Definition email_points (label : str) : Z :=
  if Str.eqb label s!"Invalid email format" then 5
  else if Str.eqb label s!"Suspicious keywords" then 3
  else if Str.eqb label s!"Suspicious TLD" then 2
  else 0.

Definition total_email_points (issues : list str) : Z :=
  fold_right (fun label n => email_points label + n) 0 issues.

Section RuleTables.
Context {R : Runtime}.
Import UrlParse.

(** The rules of [check_url], in the order of the source.  The first rule
    of the source comes as two, of which at most one fires. *)
Definition url_rules (url : str) : list rule :=
  [ {| fires := match urlparse url with
                | Return parsed =>
                    negb (Str.truthy (scheme parsed))
                    || negb (Str.truthy (netloc parsed))
                | Raise _ => false
                end;
       label := s!"Invalid URL format"; points := 5 |};
    {| fires := match urlparse url with
                | Return _ => false
                | Raise _ => true
                end;
       label := s!"Malformed URL"; points := 5 |};
    {| fires := Re.re_match false Patterns.ip_address url;
       label := s!"Contains IP address"; points := 3 |};
    {| fires := Re.re_search true Patterns.url_keywords url;
       label := s!"Suspicious keywords"; points := 2 |};
    {| fires := Re.re_match false Patterns.shortener url;
       label := s!"Shortened URL"; points := 2 |};
    {| fires := Re.re_search false Patterns.at_sign url;
       label := s!"Contains @ symbol"; points := 2 |};
    {| fires := Re.re_search false Patterns.symbols url;
       label := s!"Excessive symbols"; points := 1 |};
    {| fires := Re.re_search true Patterns.lookalike url;
       label := s!"Possible phishing domain"; points := 3 |} ].

(** The rules of [check_email]. *)
Definition email_rules (email : str) : list rule :=
  [ {| fires := negb (Re.re_match false Patterns.email email);
       label := s!"Invalid email format"; points := 5 |};
    {| fires := Re.re_search true Patterns.email_keywords email;
       label := s!"Suspicious keywords"; points := 3 |};
    {| fires := existsb (fun suffix => Str.endswith suffix email)
                  [s!".xyz"; s!".club"; s!".top"; s!".online"];
       label := s!"Suspicious TLD"; points := 2 |} ].

End RuleTables.

(** ** What the patterns accept *)

(** The literal word of [Re.Word], on code points. *)
Definition word_of (l : str) : Re.regex :=
  fold_right (fun c r => Re.Cat (Re.Chr c) r) Re.Eps l.

(** [u] spells the pattern word [w], each character compared as the
    matcher compares a literal under the flag [ic]. *)
Definition spells (ic : bool) (w u : str) : Prop :=
  Forall2 (fun p c => Re.chr_eq ic p c = true) w u.

(** One of the words occurs somewhere in [s]. *)
Definition occurs (ic : bool) (words : list string) (s : str) : Prop :=
  exists w pre u post,
    In w words /\ s = pre ++ u ++ post /\ spells ic (Str.lit w) u.

Definition url_keyword_list : list string :=
  ["free"; "login"; "verify"; "update"; "secure"; "bank"; "paypal";
   "confirm"; "account"]%string.

Definition lookalike_list : list string :=
  ["goog1e"; "facebo0k"; "paypa1"]%string.

Definition email_keyword_list : list string :=
  ["admin"; "support"; "verify"; "noreply"; "security"; "alert"]%string.

Definition shortener_list : list string :=
  ["bit.ly"; "tinyurl.com"; "goo.gl"; "t.co"]%string.

(** One of "?", "=" and "&". *)
Definition query_symbol (c : N) : bool :=
  (c =? c!"?")%N || (c =? c!"=")%N || (c =? c!"&")%N.

Section Accepted.
Context {R : Runtime}.

(** The loop of [Re.accept] for a star. *)
Definition star_loop (ic : bool) (total : nat) (r : Re.regex) (k : str -> bool)
  : nat -> str -> bool :=
  fix loop (fuel : nat) (s : str) {struct fuel} : bool :=
    match fuel with
    | S fuel' =>
        Re.accept ic total r s
          (fun s' => (List.length s' <? List.length s)%nat && loop fuel' s')
    | O => false
    end || k s.

(** Membership in a bracketed set. *)
Definition in_set (ic : bool) (set : list Re.atom) (c : N) : bool :=
  existsb (fun a => Re.atom_match ic a c) set.

(** A character of [[\w\.-]]. *)
Definition address_char (c : N) : bool :=
  Re.isword c || (c =? c!".")%N || (c =? c!"-")%N.

(** A run of one or more decimal digits. *)
Definition digits (d : str) : Prop := d <> [] /\ forallb Re.isdigit d = true.

(** local@domain.tld, with a newline allowed at the very end. *)
Definition well_formed_address (s : str) : Prop :=
  exists local domain tld nl,
    s = local ++ [c!"@"] ++ domain ++ [c!"."] ++ tld ++ nl
    /\ local <> [] /\ forallb address_char local = true
    /\ domain <> [] /\ forallb address_char domain = true
    /\ tld <> [] /\ forallb Re.isword tld = true
    /\ (nl = [] \/ nl = [10%N]).

(** http:// or https://, four runs of digits with dots between them, and
    anything after. *)
Definition starts_with_ip (url : str) : Prop :=
  exists o d1 d2 d3 d4 rest,
    url = s!"http" ++ o ++ s!"://" ++ d1 ++ [c!"."] ++ d2 ++ [c!"."] ++ d3
          ++ [c!"."] ++ d4 ++ rest
    /\ (o = [] \/ o = s!"s")
    /\ digits d1 /\ digits d2 /\ digits d3 /\ digits d4.

(** http:// or https://, the name of a shortener, and anything after. *)
Definition starts_with_shortener (url : str) : Prop :=
  exists o w rest,
    url = s!"http" ++ o ++ s!"://" ++ Str.lit w ++ rest
    /\ (o = [] \/ o = s!"s")
    /\ In w shortener_list.

End Accepted.

(** ** Counting the rows of a run *)

Definition same_status (a b : status) : bool :=
  match a, b with
  | SAFE, SAFE => true
  | POTENTIAL, POTENTIAL => true
  | SUSPICIOUS, SUSPICIOUS => true
  | _, _ => false
  end.

Section Counting.
Context {R : Runtime}.

(** How many of the entries get the status [st]. *)
Definition count_status (st : status) (es : list str) : Z :=
  Z.of_nat (List.length
              (filter (fun e => same_status (classify (fst (dispatch e))) st) es)).

End Counting.

(** ** Ticks of the slideshow timer *)

(** [n] ticks in a row, each one moving on from where the last one left. *)
Fixpoint ticks {pixmap : Type} (n : nat) (s : Slideshow.slideshow pixmap)
  : Slideshow.slideshow pixmap :=
  match n with
  | O => s
  | S n' =>
      match Slideshow.next_slide s with
      | Slideshow.Fades s' _ => ticks n' s'
      | _ => s
      end
  end.

Lemma tidy_start : tidy (0, []).
Proof.
  unfold tidy; simpl. repeat split; auto; lia.
Qed.

Lemma tidy_report (label : str) (points : Z) (acc : findings) :
  0 < points -> label <> no_issues -> tidy acc -> tidy (report label points acc).
Proof.
  intros Hp Hl (H0 & _ & Hn). unfold tidy, report; simpl. repeat split.
  - lia.
  - lia.
  - intros E. destruct (snd acc); discriminate E.
  - rewrite in_app_iff. simpl. intros [H | [H | []]]; [exact (Hn H) | exact (Hl H)].
Qed.

Lemma tidy_rule (b : bool) (label : str) (points : Z) (acc : findings) :
  0 < points -> label <> no_issues -> tidy acc ->
  tidy (if b then report label points acc else acc).
Proof.
  intros. destruct b; [apply tidy_report|]; assumption.
Qed.

Lemma conclude_range (acc : findings) : tidy acc -> 0 <= fst (conclude acc) <= 10.
Proof.
  intros (H0 & _). unfold conclude; simpl. lia.
Qed.

Lemma conclude_issues (acc : findings) :
  tidy acc ->
  snd (conclude acc) <> []
  /\ (snd (conclude acc) = [no_issues] <-> fst (conclude acc) = 0).
Proof.
  intros (H0 & Hz & Hn). unfold conclude; simpl.
  destruct (Z.min (fst acc) 10 =? 0) eqn:E.
  - apply Z.eqb_eq in E. assert (Hs : fst acc = 0) by lia.
    apply Hz in Hs. rewrite Hs. simpl. split; [discriminate|]. tauto.
  - apply Z.eqb_neq in E. split.
    + intros Hs. apply Hz in Hs. lia.
    + split; [|intros F; contradiction].
      intros Hs. exfalso. apply Hn. rewrite Hs. left; reflexivity.
Qed.

Ltac label_neq := let H := fresh in intro H; vm_compute in H; discriminate H.

Section DetectionFacts.
Context {R : Runtime}.
Import UrlParse.

Lemma check_url_tidy (url : str) :
  exists acc, tidy acc /\ check_url url = conclude acc.
Proof.
  unfold check_url. eexists. split; [|reflexivity].
  repeat (apply tidy_rule; [lia | label_neq |]).
  destruct (urlparse url) as [parsed|e].
  - apply tidy_rule; [lia | label_neq | apply tidy_start].
  - apply tidy_report; [lia | label_neq | apply tidy_start].
Qed.

Lemma check_email_tidy (email : str) :
  exists acc, tidy acc /\ check_email email = conclude acc.
Proof.
  unfold check_email. eexists. split; [|reflexivity].
  repeat (apply tidy_rule; [lia | label_neq |]).
  apply tidy_start.
Qed.

(** C1: for every input string, the score that [check_url] returns and
    the score that [check_email] returns are integers between 0 and 10,
    both included, however many rules fire. *)
Theorem score_between_0_and_10 (input : str) :
  0 <= fst (check_url input) <= 10 /\ 0 <= fst (check_email input) <= 10.
Proof.
  destruct (check_url_tidy input) as (a & Ha & ->).
  destruct (check_email_tidy input) as (b & Hb & ->).
  split; apply conclude_range; assumption.
Qed.

(** C9: for every input string, the issues that [check_url] and
    [check_email] return are not empty, and they are exactly the one
    label "No obvious issues found" if and only if the score is 0. *)
Theorem issues_nonempty_and_clean_iff_zero (input : str) :
  (snd (check_url input) <> []
   /\ (snd (check_url input) = [s!"No obvious issues found"]
       <-> fst (check_url input) = 0))
  /\ (snd (check_email input) <> []
      /\ (snd (check_email input) = [s!"No obvious issues found"]
          <-> fst (check_email input) = 0)).
Proof.
  destruct (check_url_tidy input) as (a & Ha & ->).
  destruct (check_email_tidy input) as (b & Hb & ->).
  split; apply conclude_issues; assumption.
Qed.

End DetectionFacts.

(** ** The status buckets *)

(** C3: the classifier returns a status for every score from 0 to 10: a
    score of 5 or more is SUSPICIOUS, a score strictly between 0 and 5 is
    POTENTIAL, and the score 0 is SAFE. *)
Theorem classify_buckets (score : Z) :
  0 <= score <= 10 ->
  (5 <= score -> classify score = SUSPICIOUS)
  /\ (0 < score < 5 -> classify score = POTENTIAL)
  /\ (score = 0 -> classify score = SAFE).
Proof.
  intros _. unfold classify. repeat split; intros H.
  - destruct (score >=? 5) eqn:E; [reflexivity | lia].
  - destruct (score >=? 5) eqn:E; [lia|].
    destruct (score >? 0) eqn:E'; [reflexivity | lia].
  - subst score. reflexivity.
Qed.

Lemma classify_buckets_witness :
  0 <= 7 <= 10
  /\ (5 <= 7 -> classify 7 = SUSPICIOUS)
  /\ (0 < 7 < 5 -> classify 7 = POTENTIAL)
  /\ (7 = 0 -> classify 7 = SAFE).
Proof.
  split; [lia | apply (classify_buckets 7); lia].
Defined.

Section Examples.
Context {R : Runtime}.

(** C4: on "http://192.168.1.1/login", [check_url] fires the IP-address
    rule and the suspicious-keyword rule and no other, and returns the
    score 5, which is SUSPICIOUS. *)
Theorem check_url_ip_login :
  check_url s!"http://192.168.1.1/login"
  = (5, [s!"Contains IP address"; s!"Suspicious keywords"])
  /\ classify (fst (check_url s!"http://192.168.1.1/login")) = SUSPICIOUS.
Proof.
  split; vm_compute; reflexivity.
Qed.

(** C5: on "user@example.com", [check_email] returns the score 0 and the
    issues ["No obvious issues found"], which is SAFE. *)
Theorem check_email_user_example :
  check_email s!"user@example.com" = (0, [s!"No obvious issues found"])
  /\ classify (fst (check_email s!"user@example.com")) = SAFE.
Proof.
  split; vm_compute; reflexivity.
Qed.

End Examples.

(** ** The first rule of [check_url] *)

Lemma total_points_app (issues : list str) (label : str) :
  total_points (issues ++ [label]) = total_points issues + url_points label.
Proof.
  induction issues as [|l issues IH]; simpl.
  - lia.
  - rewrite IH. lia.
Qed.

Lemma opened_rule (first other : str) (b : bool) (label : str) (points : Z)
      (acc : findings) :
  url_points label = points -> 0 <= points -> label <> other ->
  opened first other acc ->
  opened first other (if b then report label points acc else acc).
Proof.
  intros Hp H0 Hl Ho. destruct b; [|exact Ho].
  destruct Ho as (more & Hs & Hn & Hf & Ht).
  exists (more ++ [label]). unfold report; cbn [fst snd].
  rewrite Hs, Hf, total_points_app. repeat split.
  - rewrite in_app_iff. simpl. intros [H | [H | []]]; [exact (Hn H) | exact (Hl H)].
  - lia.
  - lia.
Qed.

Lemma opened_conclude (first other : str) (acc : findings) :
  opened first other acc ->
  exists more,
    snd (conclude acc) = first :: more
    /\ ~ In other more
    /\ fst (conclude acc) = Z.min (5 + total_points more) 10.
Proof.
  intros (more & Hs & Hn & Hf & Ht). exists more. unfold conclude; cbn [fst snd].
  rewrite Hf. destruct (Z.min (5 + total_points more) 10 =? 0) eqn:E.
  - apply Z.eqb_eq in E. exfalso. lia.
  - auto.
Qed.

Section FirstRule.
Context {R : Runtime}.
Import UrlParse.

Lemma check_url_opened (first other : str) (url : str) :
  opened first other
    match urlparse url with
    | Return parsed =>
        if negb (Str.truthy (scheme parsed)) || negb (Str.truthy (netloc parsed))
        then report s!"Invalid URL format" 5 (0, [])
        else (0, [])
    | Raise _ => report s!"Malformed URL" 5 (0, [])
    end ->
  other = s!"Invalid URL format" \/ other = s!"Malformed URL" ->
  exists more,
    snd (check_url url) = first :: more
    /\ ~ In other more
    /\ fst (check_url url) = Z.min (5 + total_points more) 10.
Proof.
  intros Ho Hother. apply opened_conclude. unfold check_url.
  repeat (apply opened_rule;
          [reflexivity | lia | destruct Hother as [-> | ->]; label_neq |]).
  exact Ho.
Qed.

Lemma opened_first (first other : str) :
  opened first other (report first 5 (0, [])).
Proof.
  exists []. unfold report; simpl. repeat split; auto; lia.
Qed.

End FirstRule.

(** C2, as the specification has it, fails on "http://[abc": the parser
    raises, and the only issue is "Malformed URL". *)
Lemma parse_failure_not_invalid_format :
  @UrlParse.urlparse ascii_runtime s!"http://[abc" = Raise ValueError
  /\ @check_url ascii_runtime s!"http://[abc" = (5, [s!"Malformed URL"])
  /\ ~ In s!"Invalid URL format" (snd (@check_url ascii_runtime s!"http://[abc")).
Proof.
  repeat split; try (vm_compute; reflexivity).
  vm_compute. intros [H | []]. discriminate H.
Qed.

(** ** The labels of an entry *)

Lemma in_rule (l : str) (b : bool) (label : str) (points : Z) (acc : findings) :
  In l (snd (if b then report label points acc else acc)) ->
  In l (snd acc) \/ (l = label /\ b = true).
Proof.
  destruct b; [|auto]. unfold report; cbn [fst snd]. rewrite in_app_iff.
  simpl. intros [H | [H | []]]; auto.
Qed.

Lemma in_conclude (l : str) (acc : findings) :
  In l (snd (conclude acc)) -> In l (snd acc) \/ l = no_issues.
Proof.
  unfold conclude; cbn [fst snd]. destruct (Z.min (fst acc) 10 =? 0); [|auto].
  rewrite in_app_iff. simpl. intros [H | [H | []]]; auto.
Qed.

Section Labels.
Context {R : Runtime}.
Import UrlParse.

(** A match of [[@]{1,}] starts at an "@". *)
Lemma search_at_sign (total : nat) (s : str) :
  Re.search_from false total Patterns.at_sign s = true ->
  Str.contains c!"@" s = true.
Proof.
  induction s as [|c s IH]; intros H.
  - simpl in H. discriminate H.
  - change (Str.contains c!"@" (c :: s))
      with ((c!"@" =? c)%N || Str.contains c!"@" s).
    cbn [Re.search_from] in H. apply orb_true_iff in H. destruct H as [H | H].
    + unfold Patterns.at_sign, Re.AtLeast in H. cbn [Re.accept] in H.
      apply andb_true_iff in H. destruct H as [H _].
      cbn [existsb Re.atom_match] in H. rewrite orb_false_r in H.
      unfold Re.chr_eq in H. cbn [andb] in H.
      apply N.eqb_eq in H. subst c. reflexivity.
    + rewrite (IH H). apply orb_true_r.
Qed.

Lemma check_url_at_issue (url : str) :
  In s!"Contains @ symbol" (snd (check_url url)) ->
  Str.contains c!"@" url = true.
Proof.
  intros H. apply (search_at_sign (List.length url)).
  unfold check_url in H. apply in_conclude in H.
  destruct H as [H | H]; [|vm_compute in H; discriminate H].
  repeat (apply in_rule in H;
          destruct H as [H | [H1 H2]];
          [|first [exact H2 | vm_compute in H1; discriminate H1]]).
  destruct (urlparse url) as [parsed|e].
  - apply in_rule in H. destruct H as [[] | [H1 _]].
    vm_compute in H1; discriminate H1.
  - destruct H as [H | []]. vm_compute in H; discriminate H.
Qed.

Lemma check_email_at_issue (email : str) :
  ~ In s!"Contains @ symbol" (snd (check_email email)).
Proof.
  intros H. unfold check_email in H. apply in_conclude in H.
  destruct H as [H | H]; [|vm_compute in H; discriminate H].
  repeat (apply in_rule in H;
          destruct H as [H | [H1 H2]];
          [|vm_compute in H1; discriminate H1]).
  destruct H.
Qed.

(** C10: for every line that the analysis dispatches, the issue
    "Contains @ symbol" is not in the result of that line: a line with an
    "@" goes to [check_email], which has no such label, and a line
    without one cannot fire the rule of [check_url]. *)
Theorem at_symbol_issue_never_reported (entry : str) :
  ~ In s!"Contains @ symbol" (snd (dispatch entry)).
Proof.
  unfold dispatch. destruct (Str.contains c!"@" entry) eqn:E.
  - apply check_email_at_issue.
  - intros H. apply check_url_at_issue in H. congruence.
Qed.

End Labels.

(** ** Runs and the history file *)

Section Runs.
Context {R : Runtime} {T : Toolkit}.

Lemma rows_fold (es : list str) (t : tally) :
  rows (fold_left analyze_entry es t) = rows t ++ map entry_row es.
Proof.
  revert t. induction es as [|e es IH]; intros t; simpl.
  - symmetry. apply app_nil_r.
  - rewrite IH. simpl. rewrite <- app_assoc. reflexivity.
Qed.

Lemma append_history_rows (new : list row) (file : option csv_file)
      (writable : bool) :
  append_history new file writable
  = to_csv (existing_rows file ++ DataFrame new) writable.
Proof.
  destruct file as [existing|]; [|reflexivity].
  unfold append_history, existing_rows.
  destruct (read_csv existing); reflexivity.
Qed.

(** A run on a text that is not blank.  Its results are the rows of the
    entries in their order.  It returns when the history file can be
    written, and the file then holds the rows that were read from it
    followed by these; it raises when the file cannot be written, and the
    file is then left as it was. *)
Lemma analyze_input_run (text : str) (w : state) :
  Space.strip text <> [] ->
  exists w',
    analyze_input text w
    = (w', if history_writable w then Return tt else Raise OSError)
    /\ results w' = map entry_row (entries (Space.strip text))
    /\ history_writable w' = history_writable w
    /\ history_file w'
       = if history_writable w
         then Some (Table (existing_rows (history_file w)
                           ++ DataFrame (results w')))
         else history_file w.
Proof.
  intros Hne. unfold analyze_input.
  destruct (Space.strip text) as [|c s] eqn:E; [congruence|].
  cbn [Str.truthy negb]. rewrite append_history_rows. unfold to_csv.
  destruct (history_writable w); cbn [bind]; eexists;
    (split; [reflexivity|]);
    cbn [results history_file history_writable];
    rewrite rows_fold; repeat split; reflexivity.
Qed.

Lemma entries_blank (text : str) : text = [] -> entries text = [].
Proof.
  intros ->. reflexivity.
Qed.

Lemma strip_NA : Space.strip s!"NA" = s!"NA".
Proof.
  reflexivity.
Qed.

Lemma entries_NA : entries s!"NA" = [s!"NA"].
Proof.
  reflexivity.
Qed.

(** A run on the one entry NA, when there is no history file and the
    file can be written: the file holds the row of this entry as it was
    written, with the text NA in its column Input. *)
Lemma analyze_input_NA (w : state) :
  history_file w = None ->
  history_writable w = true ->
  exists w',
    analyze_input s!"NA" w = (w', Return tt)
    /\ results w' = [entry_row s!"NA"]
    /\ history_writable w' = true
    /\ history_file w' = Some (Table (DataFrame [entry_row s!"NA"])).
Proof.
  intros Hf Hw.
  assert (Hne : Space.strip s!"NA" <> []) by (rewrite strip_NA; discriminate).
  destruct (analyze_input_run s!"NA" w Hne) as (w' & E & Rw & Ww & Fw).
  rewrite Hw in E, Ww, Fw. rewrite strip_NA, entries_NA in Rw.
  rewrite Hf, Rw in Fw. exists w'. auto.
Qed.

(** C6, at an input on which the code breaks it.  Run A analyses the one
    entry NA, with no history file yet, and run B any text; pandas,
    which wrote the text NA for run A, reads it back as a missing value.
    Both runs return, but the history does not hold the records of A
    followed by those of B: in the place of the record of A it holds a
    row whose Input is missing, which is written back as an empty
    field. *)
Theorem history_append_loses_missing_marker (w : state) (textB : str)
        (back : frame_row) :
  history_file w = None ->
  history_writable w = true ->
  read_back (DataFrame [entry_row s!"NA"]) = Return [back] ->
  Input_cell back = Missing ->
  Space.strip textB <> [] ->
  exists wA wB,
    analyze_input s!"NA" w = (wA, Return tt)
    /\ analyze_input textB wA = (wB, Return tt)
    /\ results wA = [entry_row s!"NA"]
    /\ results wB = map entry_row (entries (Space.strip textB))
    /\ history_file wB = Some (Table (back :: DataFrame (results wB)))
    /\ history_file wB
       <> Some (Table (DataFrame (results wA) ++ DataFrame (results wB))).
Proof.
  intros Hf Hw Hback Hmissing HB.
  destruct (analyze_input_NA w Hf Hw) as (wA & EA & RA & WA & FA).
  destruct (analyze_input_run textB wA HB) as (wB & EB & RB & WB & FB).
  rewrite WA in EB, FB. rewrite FA in FB.
  unfold existing_rows in FB. cbn [read_csv] in FB. rewrite Hback in FB.
  exists wA, wB. repeat (split; [assumption|]).
  rewrite FB, RA. cbn [DataFrame map app]. intros F.
  injection F as F. rewrite F in Hmissing. discriminate Hmissing.
Qed.

(** C7, as the code has it: when the history file exists and reading it
    raises, the exception of the read does not leave the run, and the
    rows of the file are given up.  The write comes after the handler:
    when the file can be written the run returns and the file holds the
    rows of this run only; when it cannot, the run raises OSError and the
    file is left as it was. *)
Theorem unreadable_history_is_replaced (w : state) (file : csv_file)
        (e : exception) (text : str) :
  history_file w = Some file ->
  read_csv file = Raise e ->
  Space.strip text <> [] ->
  exists w' out,
    analyze_input text w = (w', out)
    /\ results w' = map entry_row (entries (Space.strip text))
    /\ (history_writable w = true ->
        out = Return tt
        /\ history_file w' = Some (Table (DataFrame (results w'))))
    /\ (history_writable w = false ->
        out = Raise OSError /\ history_file w' = Some file).
Proof.
  intros Hw Hread Hne.
  destruct (analyze_input_run text w Hne) as (w' & E & Rw & _ & Fw).
  eexists w', _. split; [exact E|]. split; [assumption|].
  unfold existing_rows in Fw. rewrite Hw, Hread in Fw.
  split; intros Hwr; rewrite Hwr in *; auto.
Qed.

Lemma entries_nonblank (text : str) (e : str) :
  In e (entries text) -> text <> [].
Proof.
  intros H E. rewrite (entries_blank text E) in H. exact H.
Qed.

(** C8: scoring is deterministic and reads no state.  When the same
    entry is analysed in two runs, whatever the texts around it and
    whatever the states that the runs start from, the rows that the two
    runs leave for the entry are one and the same row, with the score and
    the issues that the scorer of the entry gives; and each run returns,
    unless its history file cannot be written. *)
Theorem scoring_is_deterministic (entry : str) (text1 text2 : str)
        (w1 w2 : state) (i j : nat) :
  nth_error (entries (Space.strip text1)) i = Some entry ->
  nth_error (entries (Space.strip text2)) j = Some entry ->
  exists w1' w2' r,
    analyze_input text1 w1
    = (w1', if history_writable w1 then Return tt else Raise OSError)
    /\ analyze_input text2 w2
       = (w2', if history_writable w2 then Return tt else Raise OSError)
    /\ nth_error (results w1') i = Some r
    /\ nth_error (results w2') j = Some r
    /\ Score r = fst (dispatch entry)
    /\ Issues r = Str.join s!", " (snd (dispatch entry)).
Proof.
  intros H1 H2.
  assert (N1 : Space.strip text1 <> [])
    by (apply (entries_nonblank _ entry), (nth_error_In _ _ H1)).
  assert (N2 : Space.strip text2 <> [])
    by (apply (entries_nonblank _ entry), (nth_error_In _ _ H2)).
  destruct (analyze_input_run text1 w1 N1) as (w1' & E1 & R1 & _).
  destruct (analyze_input_run text2 w2 N2) as (w2' & E2 & R2 & _).
  exists w1', w2', (entry_row entry).
  rewrite R1, R2. repeat split; try assumption.
  - apply map_nth_error; assumption.
  - apply map_nth_error; assumption.
  - unfold entry_row. destruct (dispatch entry); reflexivity.
  - unfold entry_row. destruct (dispatch entry); reflexivity.
Qed.

End Runs.

(** ** The theorems on runs, at concrete runs *)

(** C6 on a window just opened: after a run on NA and a run on
    user@example.com, the first row of the history has no Input. *)
Lemma history_append_loses_missing_marker_witness :
  history_file fresh_state = None
  /\ history_writable fresh_state = true
  /\ @read_back plain_toolkit (DataFrame [@entry_row ascii_runtime s!"NA"])
     = Return [ {| Input_cell := Missing;
                   Issues_cell := Text s!"Invalid URL format";
                   Score_cell := Int 5;
                   Status_cell := Text (status_text SUSPICIOUS) |} ]
  /\ @Space.strip ascii_runtime s!"user@example.com" <> []
  /\ exists wA wB,
      @analyze_input ascii_runtime plain_toolkit s!"NA" fresh_state
      = (wA, Return tt)
      /\ @analyze_input ascii_runtime plain_toolkit s!"user@example.com" wA
         = (wB, Return tt)
      /\ results wA = [@entry_row ascii_runtime s!"NA"]
      /\ results wB
         = map (@entry_row ascii_runtime)
             (@entries ascii_runtime (@Space.strip ascii_runtime s!"user@example.com"))
      /\ history_file wB
         = Some (Table ({| Input_cell := Missing;
                           Issues_cell := Text s!"Invalid URL format";
                           Score_cell := Int 5;
                           Status_cell := Text (status_text SUSPICIOUS) |}
                        :: DataFrame (results wB)))
      /\ history_file wB
         <> Some (Table (DataFrame (results wA) ++ DataFrame (results wB))).
Proof.
  split; [reflexivity|]. split; [reflexivity|].
  split; [vm_compute; reflexivity|].
  split; [vm_compute; discriminate|].
  apply (@history_append_loses_missing_marker ascii_runtime plain_toolkit
           fresh_state s!"user@example.com"
           {| Input_cell := Missing;
              Issues_cell := Text s!"Invalid URL format";
              Score_cell := Int 5;
              Status_cell := Text (status_text SUSPICIOUS) |}).
  - reflexivity.
  - reflexivity.
  - vm_compute; reflexivity.
  - reflexivity.
  - vm_compute; discriminate.
Defined.

(** C7, as the specification has it, fails when the history file can be
    neither read nor written: the run raises. *)
Lemma unwritable_history_raises :
  history_file locked_state = Some Unreadable
  /\ @read_csv plain_toolkit Unreadable = Raise ReadError
  /\ snd (@analyze_input ascii_runtime plain_toolkit s!"verify@mail.xyz"
            locked_state)
     = Raise OSError
  /\ history_file
       (fst (@analyze_input ascii_runtime plain_toolkit s!"verify@mail.xyz"
               locked_state))
     = Some Unreadable.
Proof.
  repeat split; vm_compute; reflexivity.
Qed.

Lemma unreadable_history_is_replaced_witness :
  history_file (stored_state Unreadable) = Some Unreadable
  /\ @read_csv plain_toolkit Unreadable = Raise ReadError
  /\ @Space.strip ascii_runtime s!"verify@mail.xyz" <> []
  /\ exists w' out,
      @analyze_input ascii_runtime plain_toolkit s!"verify@mail.xyz"
        (stored_state Unreadable)
      = (w', out)
      /\ results w'
         = map (@entry_row ascii_runtime)
             (@entries ascii_runtime (@Space.strip ascii_runtime s!"verify@mail.xyz"))
      /\ (history_writable (stored_state Unreadable) = true ->
          out = Return tt
          /\ history_file w' = Some (Table (DataFrame (results w'))))
      /\ (history_writable (stored_state Unreadable) = false ->
          out = Raise OSError /\ history_file w' = Some Unreadable).
Proof.
  split; [reflexivity|].
  split; [reflexivity|].
  split; [vm_compute; discriminate|].
  apply (@unreadable_history_is_replaced ascii_runtime plain_toolkit
           (stored_state Unreadable) Unreadable ReadError s!"verify@mail.xyz").
  - reflexivity.
  - reflexivity.
  - vm_compute; discriminate.
Defined.

Lemma scoring_is_deterministic_witness :
  nth_error (@entries ascii_runtime (@Space.strip ascii_runtime s!"user@example.com")) 0
  = Some s!"user@example.com"
  /\ nth_error
       (@entries ascii_runtime
          (@Space.strip ascii_runtime
             (s!"http://bit.ly/abc" ++ [10%N] ++ s!"user@example.com"))) 1
     = Some s!"user@example.com"
  /\ exists w1' w2' r,
      @analyze_input ascii_runtime plain_toolkit s!"user@example.com" fresh_state
      = (w1', if history_writable fresh_state then Return tt else Raise OSError)
      /\ @analyze_input ascii_runtime plain_toolkit
           (s!"http://bit.ly/abc" ++ [10%N] ++ s!"user@example.com")
           (stored_state (Table [frame_of earlier_row]))
         = (w2', if history_writable (stored_state (Table [frame_of earlier_row]))
                 then Return tt else Raise OSError)
      /\ nth_error (results w1') 0 = Some r
      /\ nth_error (results w2') 1 = Some r
      /\ Score r = fst (@dispatch ascii_runtime s!"user@example.com")
      /\ Issues r
         = Str.join s!", " (snd (@dispatch ascii_runtime s!"user@example.com")).
Proof.
  split; [vm_compute; reflexivity|].
  split; [vm_compute; reflexivity|].
  apply (@scoring_is_deterministic ascii_runtime plain_toolkit s!"user@example.com"
           s!"user@example.com"
           (s!"http://bit.ly/abc" ++ [10%N] ++ s!"user@example.com")
           fresh_state (stored_state (Table [frame_of earlier_row])) 0 1).
  - vm_compute; reflexivity.
  - vm_compute; reflexivity.
Defined.

(** * Further properties *)

(** ** The scorers and their tables of rules *)

Lemma subsequence_refl {A : Type} (l : list A) : subsequence l l.
Proof.
  induction l as [|x l IH]; constructor; assumption.
Qed.

Lemma subsequence_filter {A B : Type} (f : A -> B) (p : A -> bool) (l : list A) :
  subsequence (map f (filter p l)) (map f l).
Proof.
  induction l as [|x l IH]; simpl.
  - constructor.
  - destruct (p x); simpl; constructor; assumption.
Qed.

Lemma total_points_fired (rules : list rule) :
  Forall (fun r => url_points (label r) = points r) rules ->
  total_points (fired rules) = fired_points rules.
Proof.
  unfold fired, fired_points.
  induction 1 as [|r rules Hr _ IH]; simpl; [reflexivity|].
  destruct (fires r); simpl; [rewrite Hr, IH|]; auto.
Qed.

Lemma total_email_points_fired (rules : list rule) :
  Forall (fun r => email_points (label r) = points r) rules ->
  total_email_points (fired rules) = fired_points rules.
Proof.
  unfold fired, fired_points.
  induction 1 as [|r rules Hr _ IH]; simpl; [reflexivity|].
  destruct (fires r); simpl; [rewrite Hr, IH|]; auto.
Qed.

Section Tables.
Context {R : Runtime}.
Import UrlParse.

(** [check_url] is its table of rules: the issues are the labels of the
    rules that fire, or the label of a clean input when none does, and the
    score is the sum of their points, capped. *)
Lemma check_url_by_rules (url : str) :
  check_url url
  = (Z.min (fired_points (url_rules url)) 10,
     match fired (url_rules url) with
     | [] => [no_issues]
     | l => l
     end).
Proof.
  unfold check_url, url_rules.
  destruct (urlparse url) as [parsed|e];
    [destruct (negb (Str.truthy (scheme parsed)) || negb (Str.truthy (netloc parsed)))|];
    destruct (Re.re_match false Patterns.ip_address url);
    destruct (Re.re_search true Patterns.url_keywords url);
    destruct (Re.re_match false Patterns.shortener url);
    destruct (Re.re_search false Patterns.at_sign url);
    destruct (Re.re_search false Patterns.symbols url);
    destruct (Re.re_search true Patterns.lookalike url);
    reflexivity.
Qed.

Lemma check_email_by_rules (email : str) :
  check_email email
  = (Z.min (fired_points (email_rules email)) 10,
     match fired (email_rules email) with
     | [] => [no_issues]
     | l => l
     end).
Proof.
  unfold check_email, email_rules.
  destruct (Re.re_match false Patterns.email email);
    destruct (Re.re_search true Patterns.email_keywords email);
    destruct (existsb (fun suffix => Str.endswith suffix email)
                [s!".xyz"; s!".club"; s!".top"; s!".online"]);
    reflexivity.
Qed.

End Tables.

(** ** What the matcher accepts *)

Section Matcher.
Context {R : Runtime}.

Lemma accept_chr (t : nat) (p : N) (s : str) (k : str -> bool) :
  Re.accept false t (Re.Chr p) s k = true <->
  exists s', s = p :: s' /\ k s' = true.
Proof.
  destruct s as [|c s]; simpl.
  - split; [discriminate | intros (s' & E & _); discriminate E].
  - unfold Re.chr_eq; simpl. rewrite andb_true_iff, N.eqb_eq. split.
    + intros [-> H]. eauto.
    + intros (s' & E & H). injection E as -> ->. auto.
Qed.

Lemma accept_in (ic : bool) (t : nat) (set : list Re.atom) (s : str)
      (k : str -> bool) :
  Re.accept ic t (Re.In_ set) s k = true <->
  exists c s', s = c :: s' /\ in_set ic set c = true /\ k s' = true.
Proof.
  destruct s as [|c s]; simpl.
  - split; [discriminate | intros (c & s' & E & _); discriminate E].
  - fold (in_set ic set c). rewrite andb_true_iff. split.
    + intros [H1 H2]. eauto.
    + intros (c' & s' & E & H1 & H2). injection E as -> ->. auto.
Qed.

Lemma accept_cat (ic : bool) (t : nat) (r1 r2 : Re.regex) (s : str)
      (k : str -> bool) :
  Re.accept ic t (Re.Cat r1 r2) s k
  = Re.accept ic t r1 s (fun s' => Re.accept ic t r2 s' k).
Proof.
  reflexivity.
Qed.

Lemma accept_star (ic : bool) (t : nat) (r : Re.regex) (s : str)
      (k : str -> bool) :
  Re.accept ic t (Re.Star r) s k = star_loop ic t r k (List.length s) s.
Proof.
  reflexivity.
Qed.

Lemma star_loop_step (ic : bool) (t : nat) (r : Re.regex) (k : str -> bool)
      (fuel : nat) (s : str) :
  star_loop ic t r k (S fuel) s
  = Re.accept ic t r s
      (fun s' => (List.length s' <? List.length s)%nat
                 && star_loop ic t r k fuel s')
    || k s.
Proof.
  reflexivity.
Qed.

Lemma star_loop_set_sound (ic : bool) (t : nat) (set : list Re.atom)
      (k : str -> bool) (fuel : nat) (s : str) :
  star_loop ic t (Re.In_ set) k fuel s = true ->
  exists s1 s2,
    s = s1 ++ s2 /\ forallb (in_set ic set) s1 = true /\ k s2 = true.
Proof.
  revert s. induction fuel as [|fuel IH]; intros s H.
  - simpl in H. exists [], s. auto.
  - rewrite star_loop_step in H. apply orb_true_iff in H.
    destruct H as [H | H]; [|exists [], s; auto].
    apply accept_in in H. destruct H as (c & s' & -> & Hc & H).
    apply andb_true_iff in H. destruct H as [_ H].
    destruct (IH s' H) as (s1 & s2 & -> & H1 & H2).
    exists (c :: s1), s2. simpl. rewrite Hc, H1. auto.
Qed.

Lemma star_loop_set_complete (ic : bool) (t : nat) (set : list Re.atom)
      (k : str -> bool) (s1 s2 : str) (fuel : nat) :
  (List.length s1 <= fuel)%nat ->
  forallb (in_set ic set) s1 = true -> k s2 = true ->
  star_loop ic t (Re.In_ set) k fuel (s1 ++ s2) = true.
Proof.
  revert fuel. induction s1 as [|c s1 IH]; intros fuel Hf H1 H2.
  - destruct fuel; simpl; rewrite H2; [reflexivity | apply orb_true_r].
  - destruct fuel as [|fuel]; [simpl in Hf; lia|].
    simpl in H1. apply andb_true_iff in H1. destruct H1 as [Hc H1].
    rewrite star_loop_step. apply orb_true_iff. left.
    apply accept_in. exists c, (s1 ++ s2). split; [reflexivity|].
    split; [assumption|]. apply andb_true_iff. split.
    + apply Nat.ltb_lt. simpl. lia.
    + apply IH; [simpl in Hf; lia | assumption | assumption].
Qed.

Lemma accept_star_set (ic : bool) (t : nat) (set : list Re.atom) (s : str)
      (k : str -> bool) :
  Re.accept ic t (Re.Star (Re.In_ set)) s k = true <->
  exists s1 s2,
    s = s1 ++ s2 /\ forallb (in_set ic set) s1 = true /\ k s2 = true.
Proof.
  rewrite accept_star. split.
  - apply star_loop_set_sound.
  - intros (s1 & s2 & -> & H1 & H2). apply star_loop_set_complete; auto.
    rewrite length_app. lia.
Qed.

(** r{n,} on a set: a run of at least [n] characters of the set. *)
Lemma accept_at_least_set (ic : bool) (t : nat) (set : list Re.atom) (n : nat)
      (s : str) (k : str -> bool) :
  Re.accept ic t (Re.AtLeast n (Re.In_ set)) s k = true <->
  exists s1 s2,
    s = s1 ++ s2 /\ (n <= List.length s1)%nat
    /\ forallb (in_set ic set) s1 = true /\ k s2 = true.
Proof.
  revert s. induction n as [|n IH]; intros s.
  - cbn [Re.AtLeast]. rewrite accept_star_set. split.
    + intros (s1 & s2 & E & H1 & H2). exists s1, s2. repeat split; auto. lia.
    + intros (s1 & s2 & E & _ & H1 & H2). eauto.
  - cbn [Re.AtLeast]. rewrite accept_cat, accept_in. split.
    + intros (c & s' & -> & Hc & H). apply IH in H.
      destruct H as (s1 & s2 & -> & Hn & H1 & H2).
      exists (c :: s1), s2. simpl. rewrite Hc, H1. repeat split; auto. lia.
    + intros (s1 & s2 & -> & Hn & H1 & H2).
      destruct s1 as [|c s1]; [simpl in Hn; lia|].
      simpl in H1. apply andb_true_iff in H1. destruct H1 as [Hc H1].
      exists c, (s1 ++ s2). repeat split; auto. apply IH.
      exists s1, s2. repeat split; auto. simpl in Hn. lia.
Qed.

(** r+ on a set: a run of one character of the set or more. *)
Lemma accept_plus_set (ic : bool) (t : nat) (set : list Re.atom) (s : str)
      (k : str -> bool) :
  Re.accept ic t (Re.Plus (Re.In_ set)) s k = true <->
  exists s1 s2,
    s = s1 ++ s2 /\ s1 <> []
    /\ forallb (in_set ic set) s1 = true /\ k s2 = true.
Proof.
  change (Re.Plus (Re.In_ set)) with (Re.AtLeast 1 (Re.In_ set)).
  rewrite accept_at_least_set. split.
  - intros (s1 & s2 & E & Hn & H). exists s1, s2. repeat split; try tauto.
    intros ->. simpl in Hn. lia.
  - intros (s1 & s2 & E & Hn & H). exists s1, s2. repeat split; try tauto.
    destruct s1; [congruence | simpl; lia].
Qed.

(** A literal word: the input spells it. *)
Lemma accept_word (ic : bool) (t : nat) (w : str) (s : str) (k : str -> bool) :
  Re.accept ic t (word_of w) s k = true <->
  exists u s', s = u ++ s' /\ spells ic w u /\ k s' = true.
Proof.
  revert s. induction w as [|p w IH]; intros s.
  - simpl. split.
    + intros H. exists [], s. repeat split; auto. constructor.
    + intros (u & s' & -> & Hu & H). inversion Hu. assumption.
  - cbn [word_of fold_right Re.accept]. fold (word_of w).
    destruct s as [|c s].
    + split; [discriminate|]. intros (u & s' & E & Hu & _).
      inversion Hu; subst. discriminate E.
    + rewrite andb_true_iff, IH. split.
      * intros (Hc & u & s' & -> & Hu & H). exists (c :: u), s'.
        repeat split; auto. constructor; assumption.
      * intros (u & s' & E & Hu & H). inversion Hu as [|p' c' w' u' Hc Hu']; subst.
        injection E as -> ->. split; [assumption|]. eauto.
Qed.

Lemma accept_anyof (ic : bool) (t : nat) (rs : list Re.regex) (s : str)
      (k : str -> bool) :
  Re.accept ic t (Re.AnyOf rs) s k = true <->
  exists r, In r rs /\ Re.accept ic t r s k = true.
Proof.
  induction rs as [|r rs IH].
  - simpl. split.
    + destruct s; simpl; discriminate.
    + intros (r & [] & _).
  - destruct rs as [|r' rs].
    + simpl. split.
      * intros H. exists r. auto.
      * intros (r0 & [<- | []] & H). assumption.
    + change (Re.AnyOf (r :: r' :: rs)) with (Re.Alt r (Re.AnyOf (r' :: rs))).
      cbn [Re.accept]. rewrite orb_true_iff, IH. split.
      * intros [H | (r0 & Hin & H)]; [exists r | exists r0]; simpl; auto.
      * intros (r0 & [<- | Hin] & H); [left | right; exists r0]; auto.
Qed.

Lemma accept_opt (ic : bool) (t : nat) (r : Re.regex) (s : str)
      (k : str -> bool) :
  Re.accept ic t (Re.Opt r) s k = Re.accept ic t r s k || k s.
Proof.
  reflexivity.
Qed.

(** [re.search]: a match that starts somewhere in the string. *)
Lemma search_from_iff (ic : bool) (t : nat) (r : Re.regex) (s : str) :
  Re.search_from ic t r s = true <->
  exists pre rest,
    s = pre ++ rest /\ Re.accept ic t r rest (fun _ => true) = true.
Proof.
  induction s as [|c s IH].
  - simpl. rewrite orb_false_r. split.
    + intros H. exists [], []. auto.
    + intros (pre & rest & E & H). symmetry in E.
      apply app_eq_nil in E. destruct E as [-> ->]. assumption.
  - cbn [Re.search_from]. rewrite orb_true_iff, IH. split.
    + intros [H | (pre & rest & -> & H)].
      * exists [], (c :: s). auto.
      * exists (c :: pre), rest. auto.
    + intros (pre & rest & E & H). destruct pre as [|c' pre].
      * simpl in E. subst rest. left. assumption.
      * injection E as -> ->. right. eauto.
Qed.

End Matcher.

(** ** What the patterns of the program accept *)

Lemma startswith_iff (p s : str) :
  Str.startswith p s = true <-> exists rest, s = p ++ rest.
Proof.
  revert s. induction p as [|c p IH]; intros s; simpl.
  - split; eauto.
  - destruct s as [|d s].
    + split; [discriminate | intros (rest & E); discriminate E].
    + rewrite andb_true_iff, N.eqb_eq, IH. split.
      * intros (-> & rest & ->). eauto.
      * intros (rest & E). injection E as -> ->. eauto.
Qed.

Lemma endswith_iff (suffix s : str) :
  Str.endswith suffix s = true <-> exists pre, s = pre ++ suffix.
Proof.
  unfold Str.endswith. rewrite startswith_iff. split.
  - intros (rest & E). exists (rev rest).
    rewrite <- (rev_involutive s), E, rev_app_distr, rev_involutive. reflexivity.
  - intros (pre & ->). exists (rev pre). apply rev_app_distr.
Qed.

Section PatternFacts.
Context {R : Runtime}.

Lemma accept_bol (ic : bool) (t : nat) (s : str) (k : str -> bool) :
  Re.accept ic t Re.Bol s k = (List.length s =? t)%nat && k s.
Proof.
  reflexivity.
Qed.

Lemma accept_eol (ic : bool) (t : nat) (s : str) (k : str -> bool) :
  Re.accept ic t Re.Eol s k = true <->
  (s = [] \/ s = [10%N]) /\ k s = true.
Proof.
  destruct s as [|c [|d s]]; simpl.
  - split; [auto | tauto].
  - rewrite andb_true_iff, N.eqb_eq. split.
    + intros [-> H]. auto.
    + intros [[E | E] H]; [discriminate E | injection E as ->; auto].
  - split; [discriminate|]. intros [[E | E] _]; discriminate E.
Qed.

Lemma in_set_literal (p c : N) :
  in_set false [Re.ALit p] c = (c =? p)%N.
Proof.
  unfold in_set. simpl. apply orb_false_r.
Qed.

Lemma in_set_address (c : N) :
  in_set false [Re.AWord; Re.ALit c!"."; Re.ALit c!"-"] c = address_char c.
Proof.
  unfold in_set, address_char. simpl. unfold Re.chr_eq. simpl.
  rewrite orb_false_r, orb_assoc. reflexivity.
Qed.

Lemma in_set_word (c : N) : in_set false [Re.AWord] c = Re.isword c.
Proof.
  unfold in_set. simpl. apply orb_false_r.
Qed.

Lemma in_set_digit (c : N) : in_set false [Re.ADigit] c = Re.isdigit c.
Proof.
  unfold in_set. simpl. apply orb_false_r.
Qed.

Lemma in_set_query_symbol (c : N) :
  in_set false [Re.ALit c!"?"; Re.ALit c!"="; Re.ALit c!"&"] c = query_symbol c.
Proof.
  unfold in_set, query_symbol. simpl. unfold Re.chr_eq. simpl.
  rewrite orb_false_r, orb_assoc. reflexivity.
Qed.

Lemma forallb_ext_eq (p q : N -> bool) (l : str) :
  (forall c, p c = q c) -> forallb p l = forallb q l.
Proof.
  intros E. induction l as [|c l IH]; simpl; [|rewrite E, IH]; reflexivity.
Qed.

(** A search for one of several words finds an occurrence of one. *)
Lemma search_words (ic : bool) (words : list string) (s : str) :
  Re.re_search ic (Re.AnyOf (map Re.Word words)) s = true <-> occurs ic words s.
Proof.
  unfold Re.re_search, occurs. rewrite search_from_iff. split.
  - intros (pre & rest & -> & H). apply accept_anyof in H.
    destruct H as (r & Hr & H). apply in_map_iff in Hr.
    destruct Hr as (w & <- & Hw). apply (accept_word ic _ (Str.lit w)) in H.
    destruct H as (u & post & -> & Hu & _). exists w, pre, u, post. auto.
  - intros (w & pre & u & post & Hw & -> & Hu). exists pre, (u ++ post).
    split; [reflexivity|]. apply accept_anyof. exists (Re.Word w).
    split; [apply in_map; assumption|].
    apply (accept_word ic _ (Str.lit w)). exists u, post. auto.
Qed.

(** [[@]{1,}] is found exactly in the strings that hold an "@". *)
Lemma search_at_sign_iff (s : str) :
  Re.re_search false Patterns.at_sign s = true <-> In c!"@" s.
Proof.
  unfold Re.re_search, Patterns.at_sign. rewrite search_from_iff. split.
  - intros (pre & rest & -> & H). apply accept_at_least_set in H.
    destruct H as (s1 & s2 & -> & Hn & H1 & _).
    destruct s1 as [|c s1]; [simpl in Hn; lia|].
    cbn [forallb] in H1. apply andb_true_iff in H1. destruct H1 as [Hc _].
    rewrite in_set_literal in Hc. apply N.eqb_eq in Hc. subst c.
    apply in_or_app. right. left. reflexivity.
  - intros H. apply in_split in H. destruct H as (l1 & l2 & ->).
    exists l1, (c!"@" :: l2). split; [reflexivity|].
    apply accept_at_least_set. exists [c!"@"], l2.
    repeat split; auto.
Qed.

(** [[\?\=\&]{3,}] is found exactly in the strings with an unbroken run
    of three of these symbols. *)
Lemma search_symbols_iff (s : str) :
  Re.re_search false Patterns.symbols s = true <->
  exists pre run post,
    s = pre ++ run ++ post /\ (3 <= List.length run)%nat
    /\ forallb query_symbol run = true.
Proof.
  unfold Re.re_search, Patterns.symbols. rewrite search_from_iff. split.
  - intros (pre & rest & -> & H). apply accept_at_least_set in H.
    destruct H as (s1 & s2 & -> & Hn & H1 & _).
    exists pre, s1, s2. repeat split; auto.
    rewrite (forallb_ext_eq _ _ s1 in_set_query_symbol) in H1. exact H1.
  - intros (pre & run & post & -> & Hn & H1). exists pre, (run ++ post).
    split; [reflexivity|]. apply accept_at_least_set. exists run, post.
    repeat split; auto.
    rewrite (forallb_ext_eq _ _ run in_set_query_symbol). exact H1.
Qed.

End PatternFacts.

Section ProgramPatterns.
Context {R : Runtime}.

Lemma forallb_address (l : str) :
  forallb (in_set false [Re.AWord; Re.ALit c!"."; Re.ALit c!"-"]) l
  = forallb address_char l.
Proof.
  apply forallb_ext_eq, in_set_address.
Qed.

Lemma forallb_word (l : str) :
  forallb (in_set false [Re.AWord]) l = forallb Re.isword l.
Proof.
  apply forallb_ext_eq, in_set_word.
Qed.

Lemma forallb_digit (l : str) :
  forallb (in_set false [Re.ADigit]) l = forallb Re.isdigit l.
Proof.
  apply forallb_ext_eq, in_set_digit.
Qed.

(** The e-mail pattern matches exactly the well-formed addresses. *)
Lemma match_email_iff (s : str) :
  Re.re_match false Patterns.email s = true <-> well_formed_address s.
Proof.
  unfold Re.re_match, Patterns.email, Patterns.Seq. cbn [fold_right].
  rewrite accept_cat, accept_bol, Nat.eqb_refl. cbn [andb].
  rewrite accept_cat. split.
  - intros H. apply accept_plus_set in H.
    destruct H as (local & s2 & -> & Hl & Al & H).
    cbv beta in H. rewrite accept_cat in H. apply accept_chr in H.
    destruct H as (s3 & -> & H).
    cbv beta in H. rewrite accept_cat in H. apply accept_plus_set in H.
    destruct H as (domain & s4 & -> & Hd & Ad & H).
    cbv beta in H. rewrite accept_cat in H. apply accept_chr in H.
    destruct H as (s5 & -> & H).
    cbv beta in H. rewrite accept_cat in H. apply accept_plus_set in H.
    destruct H as (tld & nl & -> & Ht & At & H).
    cbv beta in H. rewrite accept_cat in H. apply accept_eol in H.
    destruct H as [Hnl _].
    rewrite forallb_address in Al, Ad. rewrite forallb_word in At.
    exists local, domain, tld, nl. repeat split; assumption.
  - intros (local & domain & tld & nl & -> & Hl & Al & Hd & Ad & Ht & At & Hnl).
    rewrite <- forallb_address in Al, Ad. rewrite <- forallb_word in At.
    apply accept_plus_set. eexists local, _.
    split; [reflexivity|]. split; [assumption|]. split; [assumption|].
    rewrite accept_cat. apply accept_chr. eexists.
    split; [reflexivity|].
    rewrite accept_cat. apply accept_plus_set. eexists domain, _.
    split; [reflexivity|]. split; [assumption|]. split; [assumption|].
    rewrite accept_cat. apply accept_chr. eexists.
    split; [reflexivity|].
    rewrite accept_cat. apply accept_plus_set. exists tld, nl.
    split; [reflexivity|]. split; [assumption|]. split; [assumption|].
    rewrite accept_cat. apply accept_eol. split; [assumption|reflexivity].
Qed.

Lemma spells_exactly (w u : str) : spells false w u <-> u = w.
Proof.
  unfold spells. split.
  - induction 1 as [|p c w u Hc _ IH]; [reflexivity|].
    unfold Re.chr_eq in Hc. simpl in Hc. apply N.eqb_eq in Hc.
    subst. reflexivity.
  - intros ->. induction w as [|p w IH]; constructor; [|assumption].
    unfold Re.chr_eq. simpl. apply N.eqb_refl.
Qed.

(** The common start of two patterns, [http[s]?://]. *)
Lemma accept_http (t : nat) (rest : Re.regex) (s : str) (k : str -> bool) :
  Re.accept false t
    (Re.Cat (Re.Word "http")
       (Re.Cat (Re.Opt (Re.In_ [Re.ALit c!"s"]))
          (Re.Cat (Re.Word "://") rest))) s k = true <->
  exists o s',
    s = s!"http" ++ o ++ s!"://" ++ s' /\ (o = [] \/ o = s!"s")
    /\ Re.accept false t rest s' k = true.
Proof.
  rewrite accept_cat. change (Re.Word "http") with (word_of s!"http").
  rewrite accept_word. split.
  - intros (u & s1 & -> & Hu & H). apply spells_exactly in Hu. subst u.
    rewrite accept_cat, accept_opt in H. apply orb_true_iff in H.
    destruct H as [H | H].
    + apply accept_in in H. destruct H as (c & s2 & -> & Hc & H).
      rewrite in_set_literal in Hc. apply N.eqb_eq in Hc. subst c.
      rewrite accept_cat in H. change (Re.Word "://") with (word_of s!"://") in H.
      apply accept_word in H. destruct H as (v & s3 & -> & Hv & H).
      apply spells_exactly in Hv. subst v.
      exists s!"s", s3. repeat split; auto.
    + rewrite accept_cat in H. change (Re.Word "://") with (word_of s!"://") in H.
      apply accept_word in H. destruct H as (v & s3 & -> & Hv & H).
      apply spells_exactly in Hv. subst v.
      exists [], s3. repeat split; auto.
  - intros (o & s' & -> & Ho & H). exists s!"http", (o ++ s!"://" ++ s').
    split; [reflexivity|]. split; [apply spells_exactly; reflexivity|].
    rewrite accept_cat, accept_opt. apply orb_true_iff.
    assert (Hk : Re.accept false t (Re.Cat (Re.Word "://") rest)
                   (s!"://" ++ s') k = true).
    { rewrite accept_cat. change (Re.Word "://") with (word_of s!"://").
      apply accept_word. exists s!"://", s'.
      split; [reflexivity|]. split; [apply spells_exactly; reflexivity|].
      assumption. }
    destruct Ho as [-> | ->].
    + right. exact Hk.
    + left. apply accept_in. exists c!"s", (s!"://" ++ s').
      split; [reflexivity|]. split; [|exact Hk].
      rewrite in_set_literal. apply N.eqb_refl.
Qed.

(** The pattern of an IP address matches exactly the strings that start
    with http:// or https:// and four dotted runs of digits. *)
Lemma match_ip_iff (url : str) :
  Re.re_match false Patterns.ip_address url = true <-> starts_with_ip url.
Proof.
  unfold Re.re_match, Patterns.ip_address, Patterns.Seq, Re.Digit, digits.
  cbn [fold_right]. rewrite accept_http. split.
  - intros (o & s1 & -> & Ho & H).
    rewrite accept_cat in H. apply accept_plus_set in H.
    destruct H as (d1 & s2 & -> & N1 & A1 & H).
    cbv beta in H. rewrite accept_cat in H. apply accept_chr in H.
    destruct H as (s3 & -> & H).
    cbv beta in H. rewrite accept_cat in H. apply accept_plus_set in H.
    destruct H as (d2 & s4 & -> & N2 & A2 & H).
    cbv beta in H. rewrite accept_cat in H. apply accept_chr in H.
    destruct H as (s5 & -> & H).
    cbv beta in H. rewrite accept_cat in H. apply accept_plus_set in H.
    destruct H as (d3 & s6 & -> & N3 & A3 & H).
    cbv beta in H. rewrite accept_cat in H. apply accept_chr in H.
    destruct H as (s7 & -> & H).
    cbv beta in H. rewrite accept_cat in H. apply accept_plus_set in H.
    destruct H as (d4 & rest & -> & N4 & A4 & _).
    rewrite forallb_digit in A1, A2, A3, A4.
    exists o, d1, d2, d3, d4, rest. unfold digits. repeat split; assumption.
  - intros (o & d1 & d2 & d3 & d4 & rest & -> & Ho
            & [N1 A1] & [N2 A2] & [N3 A3] & [N4 A4]).
    rewrite <- forallb_digit in A1, A2, A3, A4.
    eexists o, _. split; [reflexivity|]. split; [assumption|].
    rewrite accept_cat. apply accept_plus_set. eexists d1, _.
    split; [reflexivity|]. split; [assumption|]. split; [assumption|].
    rewrite accept_cat. apply accept_chr. eexists. split; [reflexivity|].
    rewrite accept_cat. apply accept_plus_set. eexists d2, _.
    split; [reflexivity|]. split; [assumption|]. split; [assumption|].
    rewrite accept_cat. apply accept_chr. eexists. split; [reflexivity|].
    rewrite accept_cat. apply accept_plus_set. eexists d3, _.
    split; [reflexivity|]. split; [assumption|]. split; [assumption|].
    rewrite accept_cat. apply accept_chr. eexists. split; [reflexivity|].
    rewrite accept_cat. apply accept_plus_set. exists d4, rest.
    split; [reflexivity|]. split; [assumption|]. split; [assumption|].
    reflexivity.
Qed.

(** The pattern of a shortener matches exactly the strings that start
    with http:// or https:// and the name of one. *)
Lemma match_shortener_iff (url : str) :
  Re.re_match false Patterns.shortener url = true <-> starts_with_shortener url.
Proof.
  unfold Re.re_match, Patterns.shortener, Patterns.Seq, starts_with_shortener.
  cbn [fold_right]. rewrite accept_http. split.
  - intros (o & s1 & -> & Ho & H).
    rewrite accept_cat in H. apply accept_anyof in H.
    destruct H as (r & Hr & H). apply in_map_iff in Hr.
    destruct Hr as (w & <- & Hw).
    apply (accept_word false _ (Str.lit w)) in H.
    destruct H as (u & rest & -> & Hu & _). apply spells_exactly in Hu. subst u.
    exists o, w, rest. repeat split; assumption.
  - intros (o & w & rest & -> & Ho & Hw).
    eexists o, _. split; [reflexivity|]. split; [assumption|].
    rewrite accept_cat. apply accept_anyof. exists (Re.Word w).
    split; [apply in_map; exact Hw|].
    apply (accept_word false _ (Str.lit w)). exists (Str.lit w), rest.
    split; [reflexivity|]. split; [apply spells_exactly; reflexivity|].
    reflexivity.
Qed.

End ProgramPatterns.

(** ** Which inputs fire which rule *)

Lemma fired_empty (rules : list rule) :
  fired rules = [] -> forall r, In r rules -> fires r = false.
Proof.
  unfold fired. intros E r Hr. destruct (fires r) eqn:F; [|reflexivity].
  assert (H : In (label r) (map label (filter fires rules))).
  { apply in_map, filter_In. auto. }
  rewrite E in H. destruct H.
Qed.

(** A label other than that of a clean input is among the issues exactly
    when a rule with this label fires. *)
Lemma reported_iff (rules : list rule) (l : str) :
  l <> no_issues ->
  In l match fired rules with
       | [] => [no_issues]
       | issues => issues
       end <->
  exists r, In r rules /\ label r = l /\ fires r = true.
Proof.
  intros Hl. destruct (fired rules) as [|x issues] eqn:E.
  - split.
    + intros [H | []]. congruence.
    + intros (r & Hr & _ & F). rewrite (fired_empty rules E r Hr) in F.
      discriminate F.
  - rewrite <- E. unfold fired. rewrite in_map_iff. split.
    + intros (r & L & H). apply filter_In in H. destruct H. eauto.
    + intros (r & Hr & L & F). exists r. split; [assumption|].
      apply filter_In. auto.
Qed.

Ltac this_rule H :=
  repeat (destruct H as [H | H];
          [first [ subst; cbn [label fires] in *; assumption
                 | exfalso; subst;
                   match goal with
                   | L : label _ = _ |- _ =>
                       cbn [label] in L; vm_compute in L; discriminate L
                   end ]
          |]);
  destruct H.

Ltac reported_by pick :=
  let r := fresh "r" in
  let Hr := fresh "Hr" in
  let L := fresh "L" in
  let F := fresh "F" in
  let H := fresh "H" in
  split;
  [ intros (r & Hr & L & F); unfold url_rules, email_rules in Hr;
    cbn [In] in Hr; this_rule Hr
  | intros H; eexists; split; [pick | split; [reflexivity | exact H]] ].

Section Reports.
Context {R : Runtime}.
Import UrlParse.

Lemma check_url_reports (url : str) (l : str) :
  l <> no_issues ->
  In l (snd (check_url url)) <->
  exists r, In r (url_rules url) /\ label r = l /\ fires r = true.
Proof.
  intros Hl. rewrite check_url_by_rules. cbn [snd].
  apply reported_iff. assumption.
Qed.

Lemma check_email_reports (email : str) (l : str) :
  l <> no_issues ->
  In l (snd (check_email email)) <->
  exists r, In r (email_rules email) /\ label r = l /\ fires r = true.
Proof.
  intros Hl. rewrite check_email_by_rules. cbn [snd].
  apply reported_iff. assumption.
Qed.

End Reports.

(** ** The two labels of the first rule *)

Section FirstRuleLabels.
Context {R : Runtime}.
Import UrlParse.

Lemma invalid_format_needs_missing_part (url : str) :
  In s!"Invalid URL format" (snd (check_url url)) ->
  exists parsed,
    urlparse url = Return parsed /\ (scheme parsed = [] \/ netloc parsed = []).
Proof.
  intros H. apply check_url_reports in H; [|label_neq].
  destruct H as (r & Hr & L & F). unfold url_rules in Hr. cbn [In] in Hr.
  destruct Hr as [Hr | Hr].
  - subst r. cbn [fires] in F.
    destruct (urlparse url) as [parsed|e]; [|discriminate F].
    exists parsed. split; [reflexivity|].
    destruct (scheme parsed); [left; reflexivity|].
    destruct (netloc parsed); [right; reflexivity|]. discriminate F.
  - repeat (destruct Hr as [Hr | Hr];
            [subst r; cbn [label] in L; vm_compute in L; discriminate L|]).
    destruct Hr.
Qed.

Lemma malformed_needs_raise (url : str) :
  In s!"Malformed URL" (snd (check_url url)) ->
  exists e, urlparse url = Raise e.
Proof.
  intros H. apply check_url_reports in H; [|label_neq].
  destruct H as (r & Hr & L & F). unfold url_rules in Hr. cbn [In] in Hr.
  destruct Hr as [Hr | Hr];
    [subst r; cbn [label] in L; vm_compute in L; discriminate L|].
  destruct Hr as [Hr | Hr].
  - subst r. cbn [fires] in F.
    destruct (urlparse url) as [parsed|e]; [discriminate F|].
    exists e. reflexivity.
  - repeat (destruct Hr as [Hr | Hr];
            [subst r; cbn [label] in L; vm_compute in L; discriminate L|]).
    destruct Hr.
Qed.

(** C2, as the code has it: a URL on which the parser raises gets 5
    points from the first rule, as a URL whose parsed scheme or host is
    missing does, but under a label of its own, "Malformed URL", and not
    under "Invalid URL format".  The two labels tell the two cases apart
    on every URL: "Invalid URL format" is reported only when the parser
    returns with the scheme or the host missing, and "Malformed URL" only
    when the parser raises; a URL parsed with both parts gets neither. *)
Theorem parse_failure_is_malformed_url (bad missing : str) (e : exception)
        (parsed : ParseResult) :
  urlparse bad = Raise e ->
  urlparse missing = Return parsed ->
  scheme parsed = [] \/ netloc parsed = [] ->
  (exists more,
      snd (check_url bad) = s!"Malformed URL" :: more
      /\ ~ In s!"Invalid URL format" more
      /\ fst (check_url bad) = Z.min (5 + total_points more) 10)
  /\ (exists more,
         snd (check_url missing) = s!"Invalid URL format" :: more
         /\ ~ In s!"Malformed URL" more
         /\ fst (check_url missing) = Z.min (5 + total_points more) 10)
  /\ (forall url,
         In s!"Invalid URL format" (snd (check_url url)) <->
         exists p, urlparse url = Return p /\ (scheme p = [] \/ netloc p = []))
  /\ (forall url,
         In s!"Malformed URL" (snd (check_url url)) <->
         exists e', urlparse url = Raise e')
  /\ (forall url p,
         urlparse url = Return p -> scheme p <> [] -> netloc p <> [] ->
         ~ In s!"Invalid URL format" (snd (check_url url))
         /\ ~ In s!"Malformed URL" (snd (check_url url))).
Proof.
  intros Hbad Hmissing Hempty.
  assert (Hraise : forall url e',
             urlparse url = Raise e' ->
             exists more,
               snd (check_url url) = s!"Malformed URL" :: more
               /\ ~ In s!"Invalid URL format" more
               /\ fst (check_url url) = Z.min (5 + total_points more) 10).
  { intros url e' Hu. apply check_url_opened; [|left; reflexivity].
    rewrite Hu. apply opened_first. }
  assert (Hmiss : forall url p,
             urlparse url = Return p -> scheme p = [] \/ netloc p = [] ->
             exists more,
               snd (check_url url) = s!"Invalid URL format" :: more
               /\ ~ In s!"Malformed URL" more
               /\ fst (check_url url) = Z.min (5 + total_points more) 10).
  { intros url p Hu Hp. apply check_url_opened; [|right; reflexivity].
    rewrite Hu.
    replace (negb (Str.truthy (scheme p)) || negb (Str.truthy (netloc p)))
      with true.
    - apply opened_first.
    - destruct Hp as [-> | ->]; simpl; [reflexivity|].
      destruct (Str.truthy (scheme p)); reflexivity. }
  split; [exact (Hraise bad e Hbad)|].
  split; [exact (Hmiss missing parsed Hmissing Hempty)|].
  split; [|split].
  - intros url. split.
    + apply invalid_format_needs_missing_part.
    + intros (p & Hu & Hp). destruct (Hmiss url p Hu Hp) as (more & -> & _).
      left. reflexivity.
  - intros url. split.
    + apply malformed_needs_raise.
    + intros (e' & Hu). destruct (Hraise url e' Hu) as (more & -> & _).
      left. reflexivity.
  - intros url p Hu Hs Hn. split.
    + intros H. apply invalid_format_needs_missing_part in H.
      destruct H as (p' & Hu' & Hp'). rewrite Hu in Hu'. injection Hu' as <-.
      tauto.
    + intros H. apply malformed_needs_raise in H.
      destruct H as (e' & Hu'). rewrite Hu in Hu'. discriminate Hu'.
Qed.

End FirstRuleLabels.

Lemma parse_failure_is_malformed_url_witness :
  @UrlParse.urlparse ascii_runtime s!"http://[abc" = Raise ValueError
  /\ @UrlParse.urlparse ascii_runtime s!"not a url"
     = Return {| UrlParse.scheme := []; UrlParse.netloc := [] |}
  /\ (exists more,
         snd (@check_url ascii_runtime s!"http://[abc") = s!"Malformed URL" :: more
         /\ ~ In s!"Invalid URL format" more
         /\ fst (@check_url ascii_runtime s!"http://[abc")
            = Z.min (5 + total_points more) 10)
  /\ (exists more,
         snd (@check_url ascii_runtime s!"not a url") = s!"Invalid URL format" :: more
         /\ ~ In s!"Malformed URL" more
         /\ fst (@check_url ascii_runtime s!"not a url")
            = Z.min (5 + total_points more) 10)
  /\ (forall url,
         In s!"Invalid URL format" (snd (@check_url ascii_runtime url)) <->
         exists p,
           @UrlParse.urlparse ascii_runtime url = Return p
           /\ (UrlParse.scheme p = [] \/ UrlParse.netloc p = []))
  /\ (forall url,
         In s!"Malformed URL" (snd (@check_url ascii_runtime url)) <->
         exists e', @UrlParse.urlparse ascii_runtime url = Raise e')
  /\ (forall url p,
         @UrlParse.urlparse ascii_runtime url = Return p ->
         UrlParse.scheme p <> [] -> UrlParse.netloc p <> [] ->
         ~ In s!"Invalid URL format" (snd (@check_url ascii_runtime url))
         /\ ~ In s!"Malformed URL" (snd (@check_url ascii_runtime url))).
Proof.
  split; [vm_compute; reflexivity|].
  split; [vm_compute; reflexivity|].
  apply (@parse_failure_is_malformed_url ascii_runtime
           s!"http://[abc" s!"not a url" ValueError
           {| UrlParse.scheme := []; UrlParse.netloc := [] |}).
  - vm_compute; reflexivity.
  - vm_compute; reflexivity.
  - left; reflexivity.
Defined.

Section RuleExtras.
Context {R : Runtime}.
Import UrlParse.

(** X1: the issues of both scorers come in the order of the rules and
    without repetition: they are the list of labels in rule order with
    some left out, unless they are the one label of a clean input. *)
Theorem issues_follow_rule_order (input : str) :
  (snd (check_url input) = [s!"No obvious issues found"]
   \/ subsequence (snd (check_url input)) url_labels)
  /\ (snd (check_email input) = [s!"No obvious issues found"]
      \/ subsequence (snd (check_email input)) email_labels).
Proof.
  rewrite check_url_by_rules, check_email_by_rules. cbn [snd]. split.
  - destruct (fired (url_rules input)) eqn:E; [left; reflexivity|].
    right. rewrite <- E. apply (subsequence_filter label fires (url_rules input)).
  - destruct (fired (email_rules input)) eqn:E; [left; reflexivity|].
    right. rewrite <- E. apply (subsequence_filter label fires (email_rules input)).
Qed.

Lemma url_rules_points (url : str) :
  Forall (fun r => url_points (label r) = points r) (url_rules url).
Proof.
  unfold url_rules. repeat (constructor; [reflexivity|]). constructor.
Qed.

Lemma email_rules_points (email : str) :
  Forall (fun r => email_points (label r) = points r) (email_rules email).
Proof.
  unfold email_rules. repeat (constructor; [reflexivity|]). constructor.
Qed.

(** X2: the score of [check_url] is the sum of the points of the issues
    that it reports, capped at 10. *)
Theorem check_url_score_is_capped_sum (url : str) :
  fst (check_url url) = Z.min (total_points (snd (check_url url))) 10.
Proof.
  rewrite check_url_by_rules. cbn [fst snd].
  rewrite <- (total_points_fired _ (url_rules_points url)).
  destruct (fired (url_rules url)); reflexivity.
Qed.

Lemma email_points_at_most_10 (email : str) :
  fired_points (email_rules email) <= 10.
Proof.
  unfold email_rules, fired_points.
  destruct (negb (Re.re_match false Patterns.email email));
    destruct (Re.re_search true Patterns.email_keywords email);
    destruct (existsb (fun suffix => Str.endswith suffix email)
                [s!".xyz"; s!".club"; s!".top"; s!".online"]);
    simpl; lia.
Qed.

(** X3: in [check_email] the cap never changes anything: the score is
    the sum of the points of the issues that it reports. *)
Theorem check_email_score_is_sum (email : str) :
  fst (check_email email) = total_email_points (snd (check_email email)).
Proof.
  rewrite check_email_by_rules. cbn [fst snd].
  rewrite Z.min_l by apply email_points_at_most_10.
  rewrite <- (total_email_points_fired _ (email_rules_points email)).
  destruct (fired (email_rules email)); reflexivity.
Qed.

(** X4: [check_url] reports "Contains IP address" exactly for the URLs
    that start with http:// or https:// in lower case, followed by four
    runs of digits with dots between them; what comes after is free. *)
Theorem ip_issue_iff (url : str) :
  In s!"Contains IP address" (snd (check_url url)) <-> starts_with_ip url.
Proof.
  rewrite <- match_ip_iff, check_url_reports by label_neq.
  reported_by ltac:(do 2 right; left; reflexivity).
Qed.

(** X5: [check_url] reports "Shortened URL" exactly for the URLs that
    start with http:// or https:// and the name of a shortener; the host
    may go on after the name. *)
Theorem shortener_issue_iff (url : str) :
  In s!"Shortened URL" (snd (check_url url)) <-> starts_with_shortener url.
Proof.
  rewrite <- match_shortener_iff, check_url_reports by label_neq.
  reported_by ltac:(do 4 right; left; reflexivity).
Qed.

(** X6: [check_url] reports "Suspicious keywords" exactly when one of its
    nine keywords occurs in the URL, letters compared without case. *)
Theorem url_keyword_issue_iff (url : str) :
  In s!"Suspicious keywords" (snd (check_url url))
  <-> occurs true url_keyword_list url.
Proof.
  rewrite <- search_words, check_url_reports by label_neq.
  reported_by ltac:(do 3 right; left; reflexivity).
Qed.

(** X7: [check_url] reports "Excessive symbols" exactly when the URL has
    three or more of "?", "=" and "&" in an unbroken run. *)
Theorem symbols_issue_iff (url : str) :
  In s!"Excessive symbols" (snd (check_url url)) <->
  exists pre run post,
    url = pre ++ run ++ post /\ (3 <= List.length run)%nat
    /\ forallb query_symbol run = true.
Proof.
  rewrite <- search_symbols_iff, check_url_reports by label_neq.
  reported_by ltac:(do 6 right; left; reflexivity).
Qed.

(** X8: [check_url] reports "Possible phishing domain" exactly when one
    of the three look-alike names occurs in the URL, letters compared
    without case and digits as they are. *)
Theorem lookalike_issue_iff (url : str) :
  In s!"Possible phishing domain" (snd (check_url url))
  <-> occurs true lookalike_list url.
Proof.
  rewrite <- search_words, check_url_reports by label_neq.
  reported_by ltac:(do 7 right; left; reflexivity).
Qed.

(** X9: [check_url] reports "Contains @ symbol" exactly when the string
    holds an "@". *)
Theorem at_issue_iff (url : str) :
  In s!"Contains @ symbol" (snd (check_url url)) <-> In c!"@" url.
Proof.
  rewrite <- search_at_sign_iff, check_url_reports by label_neq.
  reported_by ltac:(do 5 right; left; reflexivity).
Qed.

(** X10: [check_email] reports "Invalid email format" exactly for the
    strings that are not of the form local@domain.tld, where local and
    domain are non-empty runs of word characters, dots and hyphens, and
    tld a non-empty run of word characters; one newline may follow. *)
Theorem invalid_email_issue_iff (email : str) :
  In s!"Invalid email format" (snd (check_email email))
  <-> ~ well_formed_address email.
Proof.
  rewrite <- match_email_iff, check_email_reports by label_neq.
  rewrite not_true_iff_false, <- negb_true_iff.
  reported_by ltac:(left; reflexivity).
Qed.

(** X11: [check_email] reports "Suspicious keywords" exactly when one of
    its six keywords occurs in the address, letters compared without
    case. *)
Theorem email_keyword_issue_iff (email : str) :
  In s!"Suspicious keywords" (snd (check_email email))
  <-> occurs true email_keyword_list email.
Proof.
  rewrite <- search_words, check_email_reports by label_neq.
  reported_by ltac:(right; left; reflexivity).
Qed.

(** X12: [check_email] reports "Suspicious TLD" exactly when the address
    ends with ".xyz", ".club", ".top" or ".online", in lower case. *)
Theorem tld_issue_iff (email : str) :
  In s!"Suspicious TLD" (snd (check_email email)) <->
  exists pre suffix,
    email = pre ++ suffix
    /\ In suffix [s!".xyz"; s!".club"; s!".top"; s!".online"].
Proof.
  rewrite check_email_reports by label_neq.
  transitivity (existsb (fun suffix => Str.endswith suffix email)
                  [s!".xyz"; s!".club"; s!".top"; s!".online"] = true).
  - reported_by ltac:(do 2 right; left; reflexivity).
  - rewrite existsb_exists. split.
    + intros (suffix & Hs & H). apply endswith_iff in H.
      destruct H as (pre & ->). eauto.
    + intros (pre & suffix & -> & Hs). exists suffix.
      split; [assumption|]. apply endswith_iff. eauto.
Qed.

End RuleExtras.

(** ** Entries that are always suspicious, and the safe ones *)

Lemma contains_In (c : N) (s : str) : Str.contains c s = true <-> In c s.
Proof.
  unfold Str.contains. rewrite existsb_exists. split.
  - intros (d & Hd & E). apply N.eqb_eq in E. subst d. assumption.
  - intros H. exists c. split; [assumption | apply N.eqb_refl].
Qed.

Lemma find_absent (c : N) (s : str) : ~ In c s -> Str.find c s = None.
Proof.
  induction s as [|d s IH]; intros H; simpl; [reflexivity|].
  destruct (N.eqb_spec c d) as [E | E].
  - exfalso. apply H. left. auto.
  - rewrite IH; [reflexivity|]. intros F. apply H. right. assumption.
Qed.

Lemma In_dropwhile (p : char -> bool) (s : str) (c : N) :
  In c (Str.dropwhile p s) -> In c s.
Proof.
  induction s as [|d s IH]; simpl; [auto|].
  destruct (p d); [right; auto | auto].
Qed.

Lemma classify_from_5 (score : Z) : 5 <= score -> classify score = SUSPICIOUS.
Proof.
  intros H. unfold classify. destruct (score >=? 5) eqn:E; [reflexivity | lia].
Qed.

Lemma classify_safe_iff (score : Z) : classify score = SAFE <-> score <= 0.
Proof.
  unfold classify. destruct (score >=? 5) eqn:E; [split; [discriminate | lia]|].
  destruct (score >? 0) eqn:E'; split; try discriminate; try reflexivity; lia.
Qed.

Lemma fired_points_nonneg (rules : list rule) :
  Forall (fun r => 0 <= points r) rules -> 0 <= fired_points rules.
Proof.
  unfold fired_points. induction 1 as [|x rules Hx _ IH]; simpl; [lia|].
  destruct (fires x); simpl; lia.
Qed.

Lemma fired_points_from (rules : list rule) (r : rule) :
  Forall (fun r => 0 <= points r) rules ->
  In r rules -> fires r = true ->
  points r <= fired_points rules.
Proof.
  intros Hp. induction Hp as [|x rules Hx Hp IH]; intros Hr F.
  - destruct Hr.
  - apply fired_points_nonneg in Hp. unfold fired_points in *. simpl.
    destruct Hr as [-> | Hr].
    + rewrite F. simpl. lia.
    + specialize (IH Hr F). destruct (fires x); simpl; lia.
Qed.

Section Entries.
Context {R : Runtime}.
Import UrlParse.

Lemma url_rules_nonneg (url : str) :
  Forall (fun r => 0 <= points r) (url_rules url).
Proof.
  unfold url_rules. repeat (constructor; [simpl; lia|]). constructor.
Qed.

Lemma email_rules_nonneg (email : str) :
  Forall (fun r => 0 <= points r) (email_rules email).
Proof.
  unfold email_rules. repeat (constructor; [simpl; lia|]). constructor.
Qed.

Lemma split_scheme_no_colon (url : str) :
  ~ In c!":" url -> split_scheme url = ([], url).
Proof.
  intros H. unfold split_scheme. rewrite (find_absent _ _ H). reflexivity.
Qed.

(** Without a colon there is no scheme. *)
Lemma urlparse_no_colon (url : str) :
  ~ In c!":" url ->
  match urlparse url with
  | Return parsed => scheme parsed = []
  | Raise _ => True
  end.
Proof.
  intros H. unfold urlparse, urlsplit.
  rewrite split_scheme_no_colon.
  - repeat match goal with
           | |- context [if ?b then _ else _] => destruct b
           end; simpl; auto.
  - intros F. apply H. unfold remove_unsafe in F. apply filter_In in F.
    destruct F as [F _]. apply In_dropwhile in F. assumption.
Qed.

(** X13: an entry with neither "@" nor ":" in it, a bare host name for
    one, is always SUSPICIOUS: [check_url] finds no scheme in it and
    reports "Invalid URL format", or "Malformed URL" when the parser
    raises. *)
Theorem entry_without_at_or_colon_is_suspicious (entry : str) :
  ~ In c!"@" entry -> ~ In c!":" entry ->
  classify (fst (dispatch entry)) = SUSPICIOUS
  /\ (In s!"Invalid URL format" (snd (dispatch entry))
      \/ In s!"Malformed URL" (snd (dispatch entry))).
Proof.
  intros Hat Hcolon. unfold dispatch.
  destruct (Str.contains c!"@" entry) eqn:E;
    [apply contains_In in E; contradiction|].
  pose proof (urlparse_no_colon entry Hcolon) as Hp.
  assert (Hr : exists r, In r (url_rules entry) /\ fires r = true
                         /\ points r = 5
                         /\ (label r = s!"Invalid URL format"
                             \/ label r = s!"Malformed URL")).
  { unfold url_rules. destruct (urlparse entry) as [parsed|e].
    - eexists. split; [left; reflexivity|]. cbn [fires points label].
      rewrite Hp. auto.
    - eexists. split; [right; left; reflexivity|]. cbn [fires points label].
      auto. }
  destruct Hr as (r & Hr & F & P & L). split.
  - apply classify_from_5. rewrite check_url_by_rules. cbn [fst].
    pose proof (fired_points_from _ r (url_rules_nonneg entry) Hr F). lia.
  - destruct L as [L | L]; [left | right];
      (apply check_url_reports; [label_neq | eauto]).
Qed.

Lemma well_formed_chars (s : str) (c : N) :
  well_formed_address s -> In c s ->
  address_char c = true \/ c = c!"@" \/ c = 10%N.
Proof.
  intros (local & domain & tld & nl & -> & _ & Al & _ & Ad & _ & At & Hnl) H.
  rewrite forallb_forall in Al, Ad, At.
  repeat (apply in_app_or in H; destruct H as [H | H]).
  - left. apply Al, H.
  - destruct H as [<- | []]. right. left. reflexivity.
  - left. apply Ad, H.
  - destruct H as [<- | []]. left. unfold address_char.
    rewrite N.eqb_refl. apply orb_true_iff. left. apply orb_true_r.
  - left. unfold address_char. rewrite (At _ H). reflexivity.
  - destruct Hnl as [-> | ->]; [destruct H|].
    destruct H as [<- | []]. right. right. reflexivity.
Qed.

(** X14: an entry that holds an "@" goes to [check_email], so one more
    character that an address cannot have, other than a newline, makes it
    SUSPICIOUS with "Invalid email format": a URL with user information
    is scored as a bad address. *)
Theorem entry_with_at_and_foreign_char_is_suspicious (entry : str) (c : N) :
  In c!"@" entry -> In c entry ->
  address_char c = false -> c <> c!"@" -> c <> 10%N ->
  classify (fst (dispatch entry)) = SUSPICIOUS
  /\ In s!"Invalid email format" (snd (dispatch entry)).
Proof.
  intros Hat Hc Ha H1 H2. unfold dispatch.
  apply contains_In in Hat. rewrite Hat.
  assert (F : negb (Re.re_match false Patterns.email entry) = true).
  { apply negb_true_iff, not_true_iff_false. intros M.
    apply match_email_iff in M.
    destruct (well_formed_chars entry c M Hc) as [E | [E | E]]; congruence. }
  split.
  - apply classify_from_5. rewrite check_email_by_rules. cbn [fst].
    pose proof (fired_points_from (email_rules entry) _
                  (email_rules_nonneg entry) (or_introl eq_refl) F) as P.
    cbn [points] in P. lia.
  - apply check_email_reports; [label_neq|].
    eexists. split; [left; reflexivity|]. split; [reflexivity | exact F].
Qed.

(** X15: an entry is SAFE exactly when its only issue is "No obvious
    issues found". *)
Theorem safe_iff_no_issue (entry : str) :
  classify (fst (dispatch entry)) = SAFE
  <-> snd (dispatch entry) = [s!"No obvious issues found"].
Proof.
  rewrite classify_safe_iff. unfold dispatch.
  destruct (Str.contains c!"@" entry).
  - destruct (check_email_tidy entry) as (acc & Ha & ->).
    pose proof (conclude_range acc Ha). pose proof (conclude_issues acc Ha) as [_ I].
    fold no_issues. rewrite I. lia.
  - destruct (check_url_tidy entry) as (acc & Ha & ->).
    pose proof (conclude_range acc Ha). pose proof (conclude_issues acc Ha) as [_ I].
    fold no_issues. rewrite I. lia.
Qed.

End Entries.

(** ** More on runs *)

Lemma dropwhile_all (p : char -> bool) (s : str) :
  forallb p s = true -> Str.dropwhile p s = [].
Proof.
  induction s as [|c s IH]; simpl; [reflexivity|].
  intros H. apply andb_true_iff in H. destruct H as [-> H]. auto.
Qed.

Lemma dropwhile_head (p : char -> bool) (s : str) (c : char) (s' : str) :
  Str.dropwhile p s = c :: s' -> p c = false.
Proof.
  induction s as [|d s IH]; simpl; [discriminate|].
  destruct (p d) eqn:E; [assumption|]. intros H. injection H as -> _. assumption.
Qed.

Lemma dropwhile_id (p : char -> bool) (c : char) (s : str) :
  p c = false -> Str.dropwhile p (c :: s) = c :: s.
Proof.
  intros H. simpl. rewrite H. reflexivity.
Qed.

Lemma dropwhile_split (p : char -> bool) (s : str) :
  exists dropped, s = dropped ++ Str.dropwhile p s.
Proof.
  induction s as [|c s (d & IH)]; simpl.
  - exists []. reflexivity.
  - destruct (p c).
    + exists (c :: d). simpl. rewrite <- IH. reflexivity.
    + exists []. reflexivity.
Qed.

Lemma dropwhile_nonempty (p : char -> bool) (s : str) (c : char) :
  In c s -> p c = false -> Str.dropwhile p s <> [].
Proof.
  induction s as [|d s IH]; simpl; [tauto|].
  intros [-> | H] F.
  - rewrite F. discriminate.
  - destruct (p d); [auto | discriminate].
Qed.

Lemma split_cons (sep : N) (s : str) :
  exists w ws, Str.split sep s = w :: ws.
Proof.
  induction s as [|c s (w & ws & IH)]; simpl.
  - eauto.
  - destruct (c =? sep)%N; [eauto|]. rewrite IH. eauto.
Qed.

Lemma split_no_sep (sep : N) (s : str) (l : str) :
  In l (Str.split sep s) -> ~ In sep l.
Proof.
  revert l. induction s as [|c s IH]; simpl; intros l.
  - intros [<- | []]. auto.
  - destruct (N.eqb_spec c sep) as [E | E].
    + intros [<- | H]; [auto | apply IH, H].
    + destruct (split_cons sep s) as (w & ws & Hs). rewrite Hs in *.
      intros [<- | H].
      * intros [F | F]; [congruence|]. apply (IH w); [left; reflexivity | exact F].
      * apply IH. right. assumption.
Qed.

Section RunFacts.
Context {R : Runtime} {T : Toolkit}.

Lemma rstrip_prefix (s : str) : exists spaces, s = Space.rstrip s ++ spaces.
Proof.
  unfold Space.rstrip.
  destruct (dropwhile_split Space.isspace (rev s)) as (d & E).
  exists (rev d). rewrite <- rev_app_distr, <- E, rev_involutive. reflexivity.
Qed.

Lemma strip_incl (s : str) (c : N) : In c (Space.strip s) -> In c s.
Proof.
  unfold Space.strip, Space.rstrip, Space.lstrip. intros H.
  apply in_rev, In_dropwhile, in_rev in H. apply In_dropwhile in H. assumption.
Qed.

Lemma strip_head (s : str) (c : N) (s' : str) :
  Space.strip s = c :: s' -> Space.isspace c = false.
Proof.
  unfold Space.strip. intros E.
  destruct (rstrip_prefix (Space.lstrip s)) as (sp & Hs).
  rewrite E in Hs. simpl in Hs.
  apply (dropwhile_head Space.isspace _ _ _ Hs).
Qed.

Lemma strip_last (s : str) (c : N) (s' : str) :
  rev (Space.strip s) = c :: s' -> Space.isspace c = false.
Proof.
  unfold Space.strip, Space.rstrip. rewrite rev_involutive.
  apply dropwhile_head.
Qed.

Lemma strip_fixed (s : str) :
  (forall c s', s = c :: s' -> Space.isspace c = false) ->
  (forall c s', rev s = c :: s' -> Space.isspace c = false) ->
  Space.strip s = s.
Proof.
  intros Hh Hl. unfold Space.strip, Space.rstrip, Space.lstrip.
  assert (E : Str.dropwhile Space.isspace s = s).
  { destruct s as [|c s']; [reflexivity|].
    apply dropwhile_id. apply (Hh c s'). reflexivity. }
  rewrite E.
  assert (E' : Str.dropwhile Space.isspace (rev s) = rev s).
  { destruct (rev s) as [|c s'] eqn:Hr; [reflexivity|].
    apply dropwhile_id. apply (Hl c s'). reflexivity. }
  rewrite E'. apply rev_involutive.
Qed.

Lemma strip_strip (s : str) : Space.strip (Space.strip s) = Space.strip s.
Proof.
  apply strip_fixed.
  - intros c s'. apply strip_head.
  - intros c s'. apply strip_last.
Qed.

Lemma isspace_newline : Space.isspace 10%N = true.
Proof.
  reflexivity.
Qed.

(** X16: the entries that a run analyses are clean: none is empty, none
    holds a newline, and none has white space at either end. *)
Theorem entries_are_stripped_lines (text : str) (e : str) :
  In e (entries text) ->
  e <> [] /\ ~ In 10%N e /\ Space.strip e = e.
Proof.
  unfold entries. intros H. apply filter_In in H. destruct H as [H Ht].
  apply in_map_iff in H. destruct H as (line & <- & Hl).
  split; [|split].
  - intros E. rewrite E in Ht. discriminate Ht.
  - intros F. apply strip_incl in F. exact (split_no_sep _ _ _ Hl F).
  - apply strip_strip.
Qed.

(** A text that is not blank once stripped has an entry. *)
Lemma entries_nonempty (text : str) :
  Space.strip text <> [] -> entries (Space.strip text) <> [].
Proof.
  intros Hne. destruct (Space.strip text) as [|c t] eqn:E; [congruence|].
  pose proof (strip_head _ _ _ E) as Hc.
  assert (Hn : c <> 10%N) by (intros ->; rewrite isspace_newline in Hc; discriminate).
  unfold entries. simpl. apply N.eqb_neq in Hn. rewrite Hn.
  destruct (split_cons 10%N t) as (w & ws & ->). simpl.
  assert (Hs : Space.strip (c :: w) <> []).
  { unfold Space.strip, Space.lstrip, Space.rstrip.
    cbn [Str.dropwhile]. rewrite Hc. intros F.
    apply (f_equal (@rev _)) in F. rewrite rev_involutive in F. simpl in F.
    revert F. apply (dropwhile_nonempty Space.isspace _ c); [|assumption].
    apply in_or_app. right. left. reflexivity. }
  destruct (Space.strip (c :: w)) eqn:Es; [congruence|]. simpl. discriminate.
Qed.

(** X17: a text of white space only is ignored: the run returns at once
    and nothing changes, neither the results nor the cards nor the
    history file. *)
Theorem blank_text_is_ignored (text : str) (w : state) :
  forallb Space.isspace text = true -> analyze_input text w = (w, Return tt).
Proof.
  intros H. unfold analyze_input, Space.strip, Space.lstrip.
  rewrite (dropwhile_all _ _ H). reflexivity.
Qed.

Lemma entry_row_score (e : str) : Score (entry_row e) = fst (dispatch e).
Proof.
  unfold entry_row. destruct (dispatch e). reflexivity.
Qed.

Lemma entry_row_status (e : str) :
  Status (entry_row e) = status_text (classify (fst (dispatch e))).
Proof.
  unfold entry_row. destruct (dispatch e). reflexivity.
Qed.

Lemma count_status_cons (st : status) (e : str) (es : list str) :
  count_status st (e :: es)
  = (if same_status (classify (fst (dispatch e))) st then 1 else 0)
    + count_status st es.
Proof.
  unfold count_status. cbn [filter].
  destruct (same_status (classify (fst (dispatch e))) st);
    cbn [List.length]; lia.
Qed.

Lemma counts_fold (es : list str) (t : tally) :
  let t' := fold_left analyze_entry es t in
  safe_count t' = safe_count t + count_status SAFE es
  /\ risk_count t' = risk_count t + count_status POTENTIAL es
  /\ suspicious_count t' = suspicious_count t + count_status SUSPICIOUS es.
Proof.
  revert t. induction es as [|e es IH]; intros t; cbn [fold_left]; cbv zeta.
  - unfold count_status. simpl. lia.
  - specialize (IH (analyze_entry t e)). cbv zeta in IH.
    destruct IH as (I1 & I2 & I3). rewrite I1, I2, I3.
    unfold analyze_entry. cbn [safe_count risk_count suspicious_count].
    rewrite entry_row_score.
    rewrite !count_status_cons.
    destruct (classify (fst (dispatch e))); cbn [same_status]; lia.
Qed.

Lemma count_status_total (es : list str) :
  count_status SAFE es + count_status POTENTIAL es + count_status SUSPICIOUS es
  = Z.of_nat (List.length es).
Proof.
  induction es as [|e es IH].
  - reflexivity.
  - rewrite !count_status_cons. simpl List.length.
    destruct (classify (fst (dispatch e))); cbn [same_status]; lia.
Qed.

(** X18: after a run, each card holds the number of entries of its
    status, and the three cards add up to the number of rows of the
    results; the run returns, unless the history file cannot be
    written, and the cards are set in either case. *)
Theorem cards_count_the_statuses (text : str) (w : state) :
  Space.strip text <> [] ->
  exists w',
    analyze_input text w
    = (w', if history_writable w then Return tt else Raise OSError)
    /\ safe_card w' = count_status SAFE (entries (Space.strip text))
    /\ risk_card w' = count_status POTENTIAL (entries (Space.strip text))
    /\ suspicious_card w' = count_status SUSPICIOUS (entries (Space.strip text))
    /\ safe_card w' + risk_card w' + suspicious_card w'
       = Z.of_nat (List.length (results w')).
Proof.
  intros Hne. unfold analyze_input.
  destruct (Space.strip text) as [|c s] eqn:E; [congruence|].
  cbn [Str.truthy negb]. rewrite append_history_rows. unfold to_csv.
  destruct (counts_fold (entries (c :: s))
              {| rows := []; safe_count := 0; risk_count := 0;
                 suspicious_count := 0 |}) as (I1 & I2 & I3).
  cbn [safe_count risk_count suspicious_count] in I1, I2, I3.
  destruct (history_writable w); cbn [bind]; eexists;
    (split; [reflexivity|]);
    cbn [safe_card risk_card suspicious_card results];
    rewrite I1, I2, I3, rows_fold; cbn [rows app]; rewrite length_map;
    rewrite <- count_status_total; repeat split; lia.
Qed.

(** X29: what is left of the order of the history.  When the history
    file can be read and written, a run A followed by a run B leaves in
    it what pandas reads of the file that run A wrote, followed by the
    rows of B; when pandas reads that file back as it was written, these
    are the earlier rows, then the rows of A, then the rows of B. *)
Theorem history_append_keeps_rows_read_back (w : state) (file : csv_file)
        (prior mid : list frame_row) (textA textB : str) :
  history_file w = Some file ->
  history_writable w = true ->
  read_csv file = Return prior ->
  Space.strip textA <> [] ->
  Space.strip textB <> [] ->
  read_back (prior ++ DataFrame (map entry_row (entries (Space.strip textA))))
  = Return mid ->
  exists wA wB,
    analyze_input textA w = (wA, Return tt)
    /\ analyze_input textB wA = (wB, Return tt)
    /\ results wA = map entry_row (entries (Space.strip textA))
    /\ results wB = map entry_row (entries (Space.strip textB))
    /\ history_file wA = Some (Table (prior ++ DataFrame (results wA)))
    /\ history_file wB = Some (Table (mid ++ DataFrame (results wB)))
    /\ (mid = prior ++ DataFrame (results wA) ->
        history_file wB
        = Some (Table (prior ++ DataFrame (results wA)
                       ++ DataFrame (results wB)))).
Proof.
  intros Hf Hw Hprior HA HB Hmid.
  destruct (analyze_input_run textA w HA) as (wA & EA & RA & WA & FA).
  destruct (analyze_input_run textB wA HB) as (wB & EB & RB & WB & FB).
  rewrite Hw in *. rewrite WA in *.
  unfold existing_rows in FA. rewrite Hf, Hprior in FA.
  unfold existing_rows in FB. rewrite FA in FB. cbn [read_csv] in FB.
  rewrite RA, Hmid in FB.
  exists wA, wB. do 6 (split; [assumption|]).
  intros ->. rewrite FB, <- app_assoc. reflexivity.
Qed.

End RunFacts.

(** ** The History and Export buttons *)

Section Buttons.
Context {R : Runtime} {T : Toolkit}.
Import History.

Lemma count_row_entry (c : counts) (e : str) :
  count_row c (Status (entry_row e))
  = {| safe_count :=
         safe_count c + (if same_status (classify (fst (dispatch e))) SAFE
                         then 1 else 0);
       risk_count :=
         risk_count c + (if same_status (classify (fst (dispatch e))) POTENTIAL
                         then 1 else 0);
       suspicious_count :=
         suspicious_count c
         + (if same_status (classify (fst (dispatch e))) SUSPICIOUS
            then 1 else 0) |}.
Proof.
  unfold count_row. rewrite entry_row_status.
  destruct c as [a b d]. cbn [safe_count risk_count suspicious_count].
  destruct (classify (fst (dispatch e))); cbn; f_equal; lia.
Qed.

(** A row as the program writes it has a [str] in Input, Issues and
    Status: its four items are made and its status is counted. *)
Lemma show_row_written (c : counts) (r : row) :
  show_row c (frame_of r) = Return (count_row c (Status r)).
Proof.
  reflexivity.
Qed.

Lemma show_rows_written (es : list str) (c : counts) :
  show_rows (DataFrame (map entry_row es)) c
  = Return {| safe_count := safe_count c + count_status SAFE es;
              risk_count := risk_count c + count_status POTENTIAL es;
              suspicious_count := suspicious_count c + count_status SUSPICIOUS es |}.
Proof.
  revert c. induction es as [|e es IH]; intros c.
  - destruct c. unfold count_status. cbn. do 2 f_equal; lia.
  - cbn [map DataFrame show_rows]. rewrite show_row_written. cbn [bind].
    fold (DataFrame (map entry_row es)).
    rewrite IH, count_row_entry, !count_status_cons.
    cbn [safe_count risk_count suspicious_count]. do 2 f_equal; lia.
Qed.

Lemma item_outcome (val : cell) :
  QTableWidgetItem val = Return tt \/ QTableWidgetItem val = Raise TypeError.
Proof.
  destruct val; cbn; try destruct (item_accepts _); auto.
Qed.

(** The loop raises nothing but TypeError. *)
Lemma show_row_outcome (c : counts) (entry : frame_row) :
  show_row c entry = Return (count_row c (str_of (Status_cell entry)))
  \/ show_row c entry = Raise TypeError.
Proof.
  unfold show_row.
  destruct (item_outcome (Input_cell entry)) as [-> | ->]; [|right; reflexivity].
  destruct (item_outcome (Issues_cell entry)) as [-> | ->]; [|right; reflexivity].
  destruct (item_outcome (Status_cell entry)) as [-> | ->]; [|right; reflexivity].
  left. reflexivity.
Qed.

Lemma show_row_missing (c : counts) (entry : frame_row) :
  Input_cell entry = Missing \/ Issues_cell entry = Missing
  \/ Status_cell entry = Missing ->
  show_row c entry = Raise TypeError.
Proof.
  intros H. unfold show_row.
  destruct (item_outcome (Input_cell entry)) as [E0 | E0]; rewrite E0;
    [|reflexivity].
  destruct H as [H | H]; [rewrite H in E0; discriminate E0|].
  destruct (item_outcome (Issues_cell entry)) as [E1 | E1]; rewrite E1;
    [|reflexivity].
  destruct H as [H | H]; [rewrite H in E1; discriminate E1|].
  rewrite H. reflexivity.
Qed.

Lemma show_rows_missing (df : list frame_row) (c : counts) (entry : frame_row) :
  In entry df ->
  Input_cell entry = Missing \/ Issues_cell entry = Missing
  \/ Status_cell entry = Missing ->
  show_rows df c = Raise TypeError.
Proof.
  intros Hin Hm. revert c. induction df as [|r df IH]; intros c; [destruct Hin|].
  cbn [show_rows]. destruct Hin as [-> | Hin].
  - rewrite (show_row_missing c entry Hm). reflexivity.
  - destruct (show_row_outcome c r) as [-> | ->]; [|reflexivity].
    cbn [bind]. apply IH. assumption.
Qed.

(** X19: the status survives the file.  On a history file that is read
    back as the rows that the program wrote for a list of entries,
    [show_history] returns, and the counts that it takes from the markers
    in the status texts are the counts of the statuses that the entries
    were given; the results and the file are left as they were. *)
Theorem history_counts_agree_with_statuses (w : state) (file : csv_file)
        (es : list str) :
  history_file w = Some file ->
  read_csv file = Return (DataFrame (map entry_row es)) ->
  exists w',
    show_history w = (w', Return tt)
    /\ safe_card w' = count_status SAFE es
    /\ risk_card w' = count_status POTENTIAL es
    /\ suspicious_card w' = count_status SUSPICIOUS es
    /\ results w' = results w
    /\ history_file w' = history_file w.
Proof.
  intros Hw Hr. unfold show_history. rewrite Hw, Hr. cbn [bind].
  rewrite show_rows_written.
  eexists. split; [reflexivity|].
  cbn [safe_card risk_card suspicious_card results history_file
       safe_count risk_count suspicious_count].
  repeat split; auto.
Qed.

(** X20: [show_history] catches nothing.  What reading the history file
    raises leaves the call, where a run goes on; and when the file is
    read but a row has a missing value in Input, Issues or Status, making
    the item for it raises TypeError.  In both cases the cards and the
    results are left as they were. *)
Theorem show_history_catches_nothing (w : state) (file : csv_file) :
  history_file w = Some file ->
  (forall e, read_csv file = Raise e -> show_history w = (w, Raise e))
  /\ (forall df entry,
         read_csv file = Return df ->
         In entry df ->
         Input_cell entry = Missing \/ Issues_cell entry = Missing
         \/ Status_cell entry = Missing ->
         show_history w = (w, Raise TypeError)).
Proof.
  intros Hw. split.
  - intros e Hr. unfold show_history. rewrite Hw, Hr. reflexivity.
  - intros df entry Hr Hin Hm. unfold show_history. rewrite Hw, Hr.
    cbn [bind]. rewrite (show_rows_missing df _ entry Hin Hm). reflexivity.
Qed.

(** X30: History fails after a run on NA.  With no history file yet, a
    run on the one entry NA returns and writes the file; pandas reads the
    Input of its row back as a missing value, and the click on History
    that follows raises TypeError. *)
Theorem show_history_raises_after_a_run_on_NA (w : state) (back : frame_row) :
  history_file w = None ->
  history_writable w = true ->
  read_back (DataFrame [entry_row s!"NA"]) = Return [back] ->
  Input_cell back = Missing ->
  exists w1,
    analyze_input s!"NA" w = (w1, Return tt)
    /\ results w1 = [entry_row s!"NA"]
    /\ show_history w1 = (w1, Raise TypeError).
Proof.
  intros Hf Hw Hback Hm.
  destruct (analyze_input_NA w Hf Hw) as (w1 & E1 & R1 & _ & F1).
  exists w1. split; [assumption|]. split; [assumption|].
  unfold show_history. rewrite F1. cbn [read_csv]. rewrite Hback. cbn [bind].
  rewrite (show_rows_missing [back] _ back); [reflexivity | left; reflexivity | auto].
Qed.

(** X21: Export writes the rows of the last run and nothing else: after
    a run, an export to a path that is not empty asks for a file of
    exactly the rows of that run, whatever the history file held, and so
    it does after a click on History, which does not touch the
    results. *)
Theorem export_after_history_writes_the_last_run (w : state) (text path : str) :
  Space.strip text <> [] ->
  path <> [] ->
  export_csv path (fst (analyze_input text w))
  = Some (path, Table (DataFrame (map entry_row (entries (Space.strip text)))))
  /\ export_csv path (fst (show_history (fst (analyze_input text w))))
     = Some (path, Table (DataFrame (map entry_row (entries (Space.strip text))))).
Proof.
  intros Hne Hp.
  destruct (analyze_input_run text w Hne) as (w1 & E1 & R1 & _).
  rewrite E1. cbn [fst].
  assert (Hh : results (fst (show_history w1)) = results w1).
  { unfold show_history. destruct (history_file w1); [|reflexivity].
    destruct (df <- read_csv c ;; show_rows df _); reflexivity. }
  unfold export_csv. rewrite Hh, R1.
  pose proof (entries_nonempty text Hne) as Hn.
  destruct (entries (Space.strip text)) as [|e es]; [congruence|].
  cbn [map]. destruct path; [congruence|]. split; reflexivity.
Qed.

End Buttons.

(** ** The animated label *)

Lemma split_first_line (sep : N) (a b : str) :
  ~ In sep a -> Str.split sep (a ++ sep :: b) = a :: Str.split sep b.
Proof.
  induction a as [|c a IH]; intros H.
  - simpl. rewrite N.eqb_refl. reflexivity.
  - simpl. destruct (N.eqb_spec c sep) as [E | E].
    + exfalso. apply H. left. assumption.
    + rewrite IH; [reflexivity|]. intros F. apply H. right. assumption.
Qed.

Lemma split_one_line (sep : N) (a : str) :
  ~ In sep a -> Str.split sep a = [a].
Proof.
  induction a as [|c a IH]; intros H; [reflexivity|].
  simpl. destruct (N.eqb_spec c sep) as [E | E].
  - exfalso. apply H. left. assumption.
  - rewrite IH; [reflexivity|]. intros F. apply H. right. assumption.
Qed.

Lemma string_of_uint_digits (d : Decimal.uint) (c : N) :
  In c (Str.lit (NilEmpty.string_of_uint d)) -> (48 <= c <= 57)%N.
Proof.
  unfold Str.lit. induction d; simpl; intros H;
    try (destruct H as [<- | H]; [lia | auto]).
  destruct H.
Qed.

Lemma str_of_int_one_line (n : Z) : ~ In 10%N (AnimatedLabel.str_of_int n).
Proof.
  unfold AnimatedLabel.str_of_int, NilZero.string_of_int. intros H.
  destruct (Z.to_int n) as [d | d].
  - unfold NilZero.string_of_uint in H.
    destruct d; try (apply string_of_uint_digits in H; lia).
    simpl in H. destruct H as [H | []]. discriminate H.
  - change (In 10%N (45%N :: Str.lit (NilZero.string_of_uint d))) in H.
    destruct H as [H | H]; [discriminate H|].
    unfold NilZero.string_of_uint in H.
    destruct d; try (apply string_of_uint_digits in H; lia).
    simpl in H. destruct H as [H | []]. discriminate H.
Qed.

(** X22: the label keeps its title and shows one value.  After
    [setValue] the text has two lines, the first line of the text before
    and the value; so a value replaces the one before it, and the frames
    of an animation do not pile up. *)
Theorem setValue_keeps_title_and_replaces_value (v v' : Z)
        (l : AnimatedLabel.label) :
  (exists title rest,
      Str.split 10%N (AnimatedLabel.text l) = title :: rest
      /\ Str.split 10%N (AnimatedLabel.text (AnimatedLabel.setValue v l))
         = [title; AnimatedLabel.str_of_int v])
  /\ AnimatedLabel.setValue v' (AnimatedLabel.setValue v l)
     = AnimatedLabel.setValue v' l
  /\ AnimatedLabel.getValue (AnimatedLabel.setValue v l) = v.
Proof.
  destruct (split_cons 10%N (AnimatedLabel.text l)) as (title & rest & E).
  assert (Ht : ~ In 10%N title).
  { apply (split_no_sep 10%N (AnimatedLabel.text l)). rewrite E. left. reflexivity. }
  assert (Es : Str.split 10%N (AnimatedLabel.text (AnimatedLabel.setValue v l))
               = [title; AnimatedLabel.str_of_int v]).
  { unfold AnimatedLabel.setValue. cbn [AnimatedLabel.text]. rewrite E.
    change (title ++ [10%N] ++ AnimatedLabel.str_of_int v)
      with (title ++ 10%N :: AnimatedLabel.str_of_int v).
    rewrite (split_first_line _ _ _ Ht).
    rewrite (split_one_line _ _ (str_of_int_one_line v)). reflexivity. }
  split; [eauto|]. split; [|reflexivity].
  unfold AnimatedLabel.setValue at 1 3. rewrite Es, E. reflexivity.
Qed.

(** ** The slideshow *)

Section Slides.
Variable pixmap : Type.
Import Slideshow.

Lemma getitem_in_range (l : list pixmap) (i : Z) :
  0 <= i < Z.of_nat (List.length l) ->
  exists pix, getitem l i = Some pix /\ nth_error l (Z.to_nat i) = Some pix.
Proof.
  intros H. unfold getitem.
  replace ((0 <=? i) && (i <? Z.of_nat (List.length l))) with true
    by (symmetry; apply andb_true_iff; split; [apply Z.leb_le | apply Z.ltb_lt]; lia).
  destruct (nth_error l (Z.to_nat i)) as [pix|] eqn:E; [eauto|].
  apply nth_error_None in E. lia.
Qed.

Lemma next_slide_fades (s : slideshow pixmap) (l : list pixmap) :
  images s = Some l -> l <> [] ->
  exists i pix,
    next_slide s = Fades {| images := Some l; slideshow_index := i |} pix
    /\ i = (slideshow_index s + 1) mod Z.of_nat (List.length l)
    /\ 0 <= i < Z.of_nat (List.length l)
    /\ nth_error l (Z.to_nat i) = Some pix.
Proof.
  intros Hi Hl. unfold next_slide. rewrite Hi.
  destruct l as [|x l']; [congruence|]. cbv zeta.
  assert (Hn : 0 < Z.of_nat (List.length (x :: l')))
    by (simpl List.length; lia).
  pose proof (Z.mod_pos_bound (slideshow_index s + 1) _ Hn) as Hb.
  destruct (getitem_in_range (x :: l') _ Hb) as (pix & G & Nth).
  rewrite G. eexists _, pix. repeat split; auto; lia.
Qed.

(** X23: a tick never indexes outside the list of images.  With at least
    one image, whatever the index was before, even out of range, the
    index after the tick is within the list and the picture that fades in
    is the image at that index. *)
Theorem next_slide_stays_in_range (s : slideshow pixmap) (l : list pixmap) :
  images s = Some l -> l <> [] ->
  exists i pix,
    next_slide s = Fades {| images := Some l; slideshow_index := i |} pix
    /\ i = (slideshow_index s + 1) mod Z.of_nat (List.length l)
    /\ 0 <= i < Z.of_nat (List.length l)
    /\ nth_error l (Z.to_nat i) = Some pix.
Proof.
  intros Hi Hl. destruct (next_slide_fades s l Hi Hl) as (i & pix & H).
  exists i, pix. exact H.
Qed.

Lemma ticks_index (n : nat) (s : slideshow pixmap) (l : list pixmap) :
  images s = Some l -> l <> [] ->
  images (ticks n s) = Some l
  /\ (n <> O ->
      slideshow_index (ticks n s)
      = (slideshow_index s + Z.of_nat n) mod Z.of_nat (List.length l)).
Proof.
  revert s. induction n as [|n IH]; intros s Hi Hl.
  - split; [assumption | congruence].
  - destruct (next_slide_fades s l Hi Hl) as (i & pix & E & Ei & _).
    cbn [ticks]. rewrite E.
    destruct (IH {| images := Some l; slideshow_index := i |} eq_refl Hl)
      as (I1 & I2).
    split; [assumption|]. intros _. destruct n as [|n].
    + cbn [ticks slideshow_index]. rewrite Ei. reflexivity.
    + rewrite I2 by discriminate. cbn [slideshow_index]. rewrite Ei.
      assert (Hn : Z.of_nat (List.length l) <> 0)
        by (destruct l; [congruence | simpl List.length; lia]).
      rewrite Zplus_mod_idemp_l. f_equal. lia.
Qed.

(** X24: the slideshow goes round.  After [n] ticks the index has moved
    on by [n] modulo the number of images, and after as many ticks as
    there are images the slideshow is where it was. *)
Theorem slideshow_goes_round (s : slideshow pixmap) (l : list pixmap) (n : nat) :
  images s = Some l ->
  0 <= slideshow_index s < Z.of_nat (List.length l) ->
  (n <> O ->
   slideshow_index (ticks n s)
   = (slideshow_index s + Z.of_nat n) mod Z.of_nat (List.length l))
  /\ ticks (List.length l) s = s.
Proof.
  intros Hi Hr.
  assert (Hl : l <> []) by (intros ->; simpl in Hr; lia).
  split; [apply (ticks_index n s l Hi Hl)|].
  destruct (ticks_index (List.length l) s l Hi Hl) as (I1 & I2).
  assert (Hn : List.length l <> O) by (destruct l; [congruence | discriminate]).
  specialize (I2 Hn).
  replace (slideshow_index s + Z.of_nat (List.length l))
    with (slideshow_index s + 1 * Z.of_nat (List.length l)) in I2 by lia.
  rewrite Z_mod_plus_full, Z.mod_small in I2 by lia.
  destruct (ticks (List.length l) s) as [im ix], s as [im0 ix0].
  cbn [images slideshow_index] in *. congruence.
Qed.

End Slides.

(** ** Keywords in any case, and the verdict on an address *)

Lemma chr_eq_any_case (p c : N) :
  Str.ascii_isupper p = false -> Str.ascii_tolower c = p ->
  Re.chr_eq true p c = true.
Proof.
  intros Hp Hc. unfold Re.chr_eq. cbn [andb].
  destruct (Str.ascii_isalpha p) eqn:A.
  - apply orb_true_iff. left. rewrite Hc. unfold Str.ascii_tolower.
    rewrite Hp. apply N.eqb_refl.
  - apply N.eqb_eq. unfold Str.ascii_tolower in Hc.
    destruct (Str.ascii_isupper c) eqn:U; [|assumption].
    exfalso. unfold Str.ascii_isalpha, Str.ascii_islower, Str.ascii_isupper,
      Str.between in *.
    apply andb_true_iff in U. destruct U as [U1 U2].
    apply N.leb_le in U1, U2. apply orb_false_iff in A. destruct A as [_ A].
    apply andb_false_iff in A. destruct A as [A | A]; apply N.leb_gt in A; lia.
Qed.

Lemma spells_any_case (w u : str) :
  Forall (fun p => Str.ascii_isupper p = false) w ->
  map Str.ascii_tolower u = w -> spells true w u.
Proof.
  unfold spells. intros Hw. revert u.
  induction Hw as [|p w Hp _ IH]; intros u E.
  - destruct u; [constructor | discriminate E].
  - destruct u as [|c u]; [discriminate E|]. injection E as Ec Eu.
    constructor; [apply chr_eq_any_case; assumption | apply IH; assumption].
Qed.

Lemma lower_case_word (words : list string) (w : string) :
  forallb (fun w => forallb (fun p => negb (Str.ascii_isupper p)) (Str.lit w))
    words = true ->
  In w words -> Forall (fun p => Str.ascii_isupper p = false) (Str.lit w).
Proof.
  intros H Hw. rewrite forallb_forall in H. specialize (H w Hw).
  rewrite forallb_forall in H. apply Forall_forall. intros p Hp.
  apply negb_true_iff, H, Hp.
Qed.

Section Verdicts.
Context {R : Runtime}.

(** X25: the keyword rules do not look at the case of ASCII letters.  A
    string in which a keyword of [check_url], a keyword of [check_email]
    or a look-alike name occurs in any mix of upper and lower case gets
    the issue of that rule. *)
Theorem keywords_match_in_any_case (input : str) (w : string) (pre u post : str) :
  input = pre ++ u ++ post ->
  map Str.ascii_tolower u = Str.lit w ->
  (In w url_keyword_list -> In s!"Suspicious keywords" (snd (check_url input)))
  /\ (In w lookalike_list
      -> In s!"Possible phishing domain" (snd (check_url input)))
  /\ (In w email_keyword_list
      -> In s!"Suspicious keywords" (snd (check_email input))).
Proof.
  intros -> Hu.
  assert (Hs : forall words,
             forallb (fun w => forallb (fun p => negb (Str.ascii_isupper p))
                                 (Str.lit w)) words = true ->
             In w words ->
             Re.re_search true (Re.AnyOf (map Re.Word words)) (pre ++ u ++ post)
             = true).
  { intros words Hl Hw. apply search_words. exists w, pre, u, post.
    split; [assumption|]. split; [reflexivity|].
    apply spells_any_case; [|assumption].
    apply (lower_case_word words); assumption. }
  split; [|split]; intros Hw.
  - apply check_url_reports; [label_neq|].
    eexists. split; [do 3 right; left; reflexivity|].
    split; [reflexivity|]. apply (Hs url_keyword_list); [reflexivity | exact Hw].
  - apply check_url_reports; [label_neq|].
    eexists. split; [do 7 right; left; reflexivity|].
    split; [reflexivity|]. apply (Hs lookalike_list); [reflexivity | exact Hw].
  - apply check_email_reports; [label_neq|].
    eexists. split; [right; left; reflexivity|].
    split; [reflexivity|]. apply (Hs email_keyword_list); [reflexivity | exact Hw].
Qed.

(** X26: the verdict on an address.  [check_email] makes a string
    SUSPICIOUS exactly when its format is invalid, or when it has both a
    suspicious keyword and a suspicious TLD; one of these two alone makes
    it POTENTIAL. *)
Theorem email_verdict (email : str) :
  let issues := snd (check_email email) in
  let verdict := classify (fst (check_email email)) in
  (verdict = SUSPICIOUS <->
   In s!"Invalid email format" issues
   \/ (In s!"Suspicious keywords" issues /\ In s!"Suspicious TLD" issues))
  /\ (verdict = POTENTIAL <->
      ~ In s!"Invalid email format" issues
      /\ (In s!"Suspicious keywords" issues <-> ~ In s!"Suspicious TLD" issues)).
Proof.
  cbv zeta. rewrite check_email_by_rules. unfold email_rules.
  destruct (negb (Re.re_match false Patterns.email email));
    destruct (Re.re_search true Patterns.email_keywords email);
    destruct (existsb (fun suffix => Str.endswith suffix email)
                [s!".xyz"; s!".club"; s!".top"; s!".online"]);
    vm_compute; repeat split; intros;
    repeat match goal with
           | H : _ /\ _ |- _ => destruct H
           | H : _ \/ _ |- _ => destruct H
           | H : False |- _ => destruct H
           | H : _ :: _ = _ :: _ |- _ => discriminate H
           | H : SUSPICIOUS = _ |- _ => discriminate H
           | H : POTENTIAL = _ |- _ => discriminate H
           | H : SAFE = _ |- _ => discriminate H
           end;
    try reflexivity; try tauto; try (intuition discriminate).
Qed.

End Verdicts.

(** ** The first rule next to the others *)

Lemma In_takewhile (p : N -> bool) (s : str) (c : N) :
  In c (UrlParse.takewhile p s) -> In c s.
Proof.
  induction s as [|d s IH]; simpl; [auto|].
  destruct (p d); [|intros []]. intros [H | H]; auto.
Qed.

Lemma In_skipn (n : nat) (s : str) (c : N) : In c (skipn n s) -> In c s.
Proof.
  revert s. induction n as [|n IH]; intros s; [auto|].
  destruct s as [|d s]; simpl; [auto|]. intros H. right. apply IH, H.
Qed.

Lemma In_split_scheme (url : str) (c : N) :
  In c (snd (UrlParse.split_scheme url)) -> In c url.
Proof.
  unfold UrlParse.split_scheme.
  destruct (Str.find c!":" url) as [[|i]|]; [auto | | auto].
  destruct url as [|c0 url]; [auto|].
  destruct (Str.isascii c0 && Str.ascii_isalpha c0
            && forallb UrlParse.scheme_char (firstn (S i) (c0 :: url)));
    [|auto].
  cbn [snd]. apply In_skipn.
Qed.

Section FirstRuleFacts.
Context {R : Runtime}.
Import UrlParse.

(** The parser raises only on a square bracket or on a character that is
    not ASCII. *)
Lemma urlparse_raises (url : str) (e : exception) :
  urlparse url = Raise e ->
  In c!"[" url \/ In c!"]" url \/ exists c, In c url /\ Str.isascii c = false.
Proof.
  unfold urlparse, urlsplit.
  set (u := remove_unsafe (lstrip_c0 url)).
  assert (Hu : forall c, In c u -> In c url).
  { intros c H. unfold u, remove_unsafe in H. apply filter_In in H.
    destruct H as [H _]. apply In_dropwhile in H. assumption. }
  pose proof (In_split_scheme u) as Hs.
  destruct (split_scheme u) as [sch rest]. cbn [snd] in Hs.
  destruct (Str.startswith s!"//" rest); [|discriminate].
  assert (Hn : forall c, In c (splitnetloc rest) -> In c url).
  { intros c H. apply Hu, Hs. unfold splitnetloc in H.
    apply In_takewhile, In_skipn in H. assumption. }
  cbv zeta.
  destruct (Str.contains c!"[" (splitnetloc rest)) eqn:O.
  - intros _. left. apply Hn, contains_In, O.
  - destruct (Str.contains c!"]" (splitnetloc rest)) eqn:C.
    + intros _. right. left. apply Hn, contains_In, C.
    + cbn [andb orb negb].
      destruct (checknetloc (splitnetloc rest)) eqn:K; [discriminate|].
      intros _. right. right. unfold checknetloc in K.
      apply orb_false_iff in K. destruct K as [K _].
      apply orb_false_iff in K. destruct K as [_ K].
      assert (Hex : existsb (fun c => negb (Str.isascii c)) (splitnetloc rest)
                    = true).
      { clear - K. induction (splitnetloc rest) as [|c l IH]; simpl in *;
          [discriminate|].
        destruct (Str.isascii c); simpl in *; auto. }
      apply existsb_exists in Hex. destruct Hex as (c & Hc & Hf).
      exists c. split; [apply Hn, Hc | apply negb_true_iff, Hf].
Qed.

(** X27: "Malformed URL" needs a square bracket or a character that is
    not ASCII: [check_url] never reports it for an ASCII string without
    "[" and "]". *)
Theorem malformed_url_needs_bracket_or_non_ascii (url : str) :
  In s!"Malformed URL" (snd (check_url url)) ->
  In c!"[" url \/ In c!"]" url \/ exists c, In c url /\ Str.isascii c = false.
Proof.
  intros H. apply check_url_reports in H; [|label_neq].
  destruct H as (r & Hr & L & F).
  assert (Hp : exists e, urlparse url = Raise e).
  { unfold url_rules in Hr. cbn [In] in Hr.
    destruct (urlparse url) as [parsed|e] eqn:E; [|eauto].
    exfalso.
    repeat (destruct Hr as [Hr | Hr];
            [subst r; cbn [label fires] in *;
             first [discriminate F | vm_compute in L; discriminate L]|]).
    destruct Hr. }
  destruct Hp as (e & E). exact (urlparse_raises url e E).
Qed.

(** After http:// or https://, a character that is no delimiter starts a
    host: the parser finds a scheme and a host, or raises. *)
Lemma urlparse_http (o : str) (c : N) (rest : str) :
  o = [] \/ o = s!"s" ->
  netloc_delim c = false ->
  (negb ((c =? 9)%N || (c =? 13)%N || (c =? 10)%N)) = true ->
  match urlparse (s!"http" ++ o ++ s!"://" ++ c :: rest) with
  | Return parsed => scheme parsed <> [] /\ netloc parsed <> []
  | Raise _ => True
  end.
Proof.
  intros Ho Hd Hc. unfold urlparse, urlsplit.
  destruct Ho as [-> | ->].
  - change (remove_unsafe (lstrip_c0 (s!"http" ++ [] ++ s!"://" ++ c :: rest)))
      with (s!"http://" ++ filter (fun c => negb ((c =? 9)%N || (c =? 13)%N
                                                    || (c =? 10)%N)) (c :: rest)).
    cbn [filter]. rewrite Hc.
    change (split_scheme (s!"http://" ++ c :: _))
      with (s!"http", s!"//" ++ c :: filter
                        (fun c => negb ((c =? 9)%N || (c =? 13)%N || (c =? 10)%N))
                        rest).
    cbv iota beta.
    change (Str.startswith s!"//" (s!"//" ++ c :: _)) with true. cbv iota.
    unfold splitnetloc.
    change (skipn 2 (s!"//" ++ c :: ?x)) with (c :: x).
    cbn [takewhile]. rewrite Hd. cbn [negb].
    repeat match goal with
           | |- context [if ?b then _ else _] => destruct b
           end; cbn [scheme netloc]; auto; split; discriminate.
  - change (remove_unsafe (lstrip_c0 (s!"http" ++ s!"s" ++ s!"://" ++ c :: rest)))
      with (s!"https://" ++ filter (fun c => negb ((c =? 9)%N || (c =? 13)%N
                                                     || (c =? 10)%N)) (c :: rest)).
    cbn [filter]. rewrite Hc.
    change (split_scheme (s!"https://" ++ c :: _))
      with (s!"https", s!"//" ++ c :: filter
                         (fun c => negb ((c =? 9)%N || (c =? 13)%N || (c =? 10)%N))
                         rest).
    cbv iota beta.
    change (Str.startswith s!"//" (s!"//" ++ c :: _)) with true. cbv iota.
    unfold splitnetloc.
    change (skipn 2 (s!"//" ++ c :: ?x)) with (c :: x).
    cbn [takewhile]. rewrite Hd. cbn [negb].
    repeat match goal with
           | |- context [if ?b then _ else _] => destruct b
           end; cbn [scheme netloc]; auto; split; discriminate.
Qed.

Lemma digit_starts_host (c : N) :
  Re.isdigit c = true ->
  netloc_delim c = false
  /\ negb ((c =? 9)%N || (c =? 13)%N || (c =? 10)%N) = true.
Proof.
  unfold Re.isdigit, Str.isascii, Str.ascii_isdigit, Str.between, netloc_delim.
  intros H.
  assert (Hc : (48 <= c)%N).
  { destruct (N.ltb_spec c 128) as [L | L]; [|lia].
    apply andb_true_iff in H. destruct H as [H _]. apply N.leb_le in H. exact H. }
  change c!"/" with 47%N. change c!"?" with 63%N. change c!"#" with 35%N.
  assert (Hq : c <> 63%N).
  { intros ->. vm_compute in H. discriminate H. }
  destruct (N.eqb_spec c 47), (N.eqb_spec c 63), (N.eqb_spec c 35),
    (N.eqb_spec c 9), (N.eqb_spec c 13), (N.eqb_spec c 10);
    try lia; try contradiction; auto.
Qed.

Lemma not_invalid_after_http (o : str) (c : N) (rest : str) :
  o = [] \/ o = s!"s" ->
  netloc_delim c = false ->
  negb ((c =? 9)%N || (c =? 13)%N || (c =? 10)%N) = true ->
  ~ In s!"Invalid URL format"
      (snd (check_url (s!"http" ++ o ++ s!"://" ++ c :: rest))).
Proof.
  intros Ho Hd Hc H. pose proof (urlparse_http o c rest Ho Hd Hc) as Hp.
  apply check_url_reports in H; [|label_neq].
  destruct H as (r & Hr & L & F). unfold url_rules in Hr. cbn [In] in Hr.
  destruct Hr as [Hr | Hr].
  - subst r. cbn [fires] in F.
    destruct (urlparse (s!"http" ++ o ++ s!"://" ++ c :: rest)) as [parsed|e];
      [|discriminate F].
    destruct Hp as [Hs Hn].
    destruct (scheme parsed); [congruence|].
    destruct (netloc parsed); [congruence|]. discriminate F.
  - repeat (destruct Hr as [Hr | Hr];
            [subst r; cbn [label] in L; vm_compute in L; discriminate L|]).
    destruct Hr.
Qed.

(** X28: a URL that is reported with an IP address or as a shortened URL
    is never reported as "Invalid URL format" too: both patterns ask for
    http:// or https:// and the start of a host, in which the parser
    finds a scheme and a host. *)
Theorem ip_and_shortener_exclude_invalid_format (url : str) :
  In s!"Contains IP address" (snd (check_url url))
  \/ In s!"Shortened URL" (snd (check_url url)) ->
  ~ In s!"Invalid URL format" (snd (check_url url)).
Proof.
  intros [H | H].
  - apply check_url_reports in H; [|label_neq].
    assert (M : Re.re_match false Patterns.ip_address url = true).
    { destruct H as (r & Hr & L & F). unfold url_rules in Hr. cbn [In] in Hr.
      this_rule Hr. }
    apply match_ip_iff in M.
    destruct M as (o & d1 & d2 & d3 & d4 & rest & -> & Ho & [N1 A1] & _).
    destruct d1 as [|c d1]; [congruence|].
    cbn [forallb] in A1. apply andb_true_iff in A1. destruct A1 as [Hc _].
    destruct (digit_starts_host c Hc) as [Hd Hu].
    change (s!"http" ++ o ++ s!"://" ++ (c :: d1) ++ [c!"."] ++ d2 ++ [c!"."]
            ++ d3 ++ [c!"."] ++ d4 ++ rest)
      with (s!"http" ++ o ++ s!"://" ++ c :: (d1 ++ [c!"."] ++ d2 ++ [c!"."]
            ++ d3 ++ [c!"."] ++ d4 ++ rest)).
    apply not_invalid_after_http; assumption.
  - apply check_url_reports in H; [|label_neq].
    assert (M : Re.re_match false Patterns.shortener url = true).
    { destruct H as (r & Hr & L & F). unfold url_rules in Hr. cbn [In] in Hr.
      this_rule Hr. }
    apply match_shortener_iff in M.
    destruct M as (o & w & rest & -> & Ho & Hw).
    unfold shortener_list in Hw. cbn [In] in Hw.
    destruct Hw as [<- | [<- | [<- | [<- | []]]]];
      (match goal with
       | |- ~ In _ (snd (check_url (_ ++ _ ++ _ ++ Str.lit ?w ++ ?rest))) =>
           let l := eval vm_compute in (Str.lit w) in
           match l with
           | ?c :: ?tl =>
               change (Str.lit w ++ rest) with (c :: (tl ++ rest))
           end
       end;
       apply not_invalid_after_http; [assumption | reflexivity | reflexivity]).
Qed.

End FirstRuleFacts.

(** ** The further theorems at concrete inputs *)

Ltac not_in :=
  let H := fresh in
  intro H; vm_compute in H;
  repeat (destruct H as [H | H]; [discriminate H|]); destruct H.

Ltac is_in := vm_compute; repeat (first [left; reflexivity | right]).

Lemma entry_without_at_or_colon_is_suspicious_witness :
  ~ In c!"@" s!"example.com"
  /\ ~ In c!":" s!"example.com"
  /\ classify (fst (@dispatch ascii_runtime s!"example.com")) = SUSPICIOUS
  /\ (In s!"Invalid URL format" (snd (@dispatch ascii_runtime s!"example.com"))
      \/ In s!"Malformed URL" (snd (@dispatch ascii_runtime s!"example.com"))).
Proof.
  split; [not_in|]. split; [not_in|].
  apply (@entry_without_at_or_colon_is_suspicious ascii_runtime s!"example.com").
  - not_in.
  - not_in.
Defined.

Lemma entry_with_at_and_foreign_char_is_suspicious_witness :
  In c!"@" s!"http://user@host/"
  /\ In c!"/" s!"http://user@host/"
  /\ @address_char ascii_runtime c!"/" = false
  /\ c!"/" <> c!"@"
  /\ c!"/" <> 10%N
  /\ classify (fst (@dispatch ascii_runtime s!"http://user@host/")) = SUSPICIOUS
  /\ In s!"Invalid email format" (snd (@dispatch ascii_runtime s!"http://user@host/")).
Proof.
  split; [is_in|]. split; [is_in|]. split; [reflexivity|].
  split; [label_neq|]. split; [label_neq|].
  apply (@entry_with_at_and_foreign_char_is_suspicious ascii_runtime
           s!"http://user@host/" c!"/").
  - is_in.
  - is_in.
  - reflexivity.
  - label_neq.
  - label_neq.
Defined.

Lemma entries_are_stripped_lines_witness :
  In s!"http://bit.ly/abc"
    (@entries ascii_runtime
       (s!"user@example.com" ++ [10%N; 32%N] ++ s!"http://bit.ly/abc "))
  /\ s!"http://bit.ly/abc" <> []
  /\ ~ In 10%N s!"http://bit.ly/abc"
  /\ @Space.strip ascii_runtime s!"http://bit.ly/abc" = s!"http://bit.ly/abc".
Proof.
  split; [is_in|].
  apply (@entries_are_stripped_lines ascii_runtime
           (s!"user@example.com" ++ [10%N; 32%N] ++ s!"http://bit.ly/abc ")
           s!"http://bit.ly/abc").
  is_in.
Defined.

Lemma blank_text_is_ignored_witness :
  forallb (@Space.isspace ascii_runtime) [32%N; 10%N; 9%N; 32%N] = true
  /\ @analyze_input ascii_runtime plain_toolkit [32%N; 10%N; 9%N; 32%N]
       (stored_state (Table [frame_of earlier_row]))
     = (stored_state (Table [frame_of earlier_row]), Return tt).
Proof.
  split; [reflexivity|].
  apply (@blank_text_is_ignored ascii_runtime plain_toolkit
           [32%N; 10%N; 9%N; 32%N]
           (stored_state (Table [frame_of earlier_row]))).
  reflexivity.
Defined.

Lemma cards_count_the_statuses_witness :
  @Space.strip ascii_runtime
    (s!"user@example.com" ++ [10%N] ++ s!"http://192.168.1.1/login") <> []
  /\ exists w',
      @analyze_input ascii_runtime plain_toolkit
        (s!"user@example.com" ++ [10%N] ++ s!"http://192.168.1.1/login")
        fresh_state
      = (w', if history_writable fresh_state then Return tt else Raise OSError)
      /\ safe_card w'
         = @count_status ascii_runtime SAFE
             (@entries ascii_runtime
                (@Space.strip ascii_runtime
                   (s!"user@example.com" ++ [10%N] ++ s!"http://192.168.1.1/login")))
      /\ risk_card w'
         = @count_status ascii_runtime POTENTIAL
             (@entries ascii_runtime
                (@Space.strip ascii_runtime
                   (s!"user@example.com" ++ [10%N] ++ s!"http://192.168.1.1/login")))
      /\ suspicious_card w'
         = @count_status ascii_runtime SUSPICIOUS
             (@entries ascii_runtime
                (@Space.strip ascii_runtime
                   (s!"user@example.com" ++ [10%N] ++ s!"http://192.168.1.1/login")))
      /\ safe_card w' + risk_card w' + suspicious_card w'
         = Z.of_nat (List.length (results w')).
Proof.
  split; [vm_compute; discriminate|].
  apply (@cards_count_the_statuses ascii_runtime plain_toolkit
           (s!"user@example.com" ++ [10%N] ++ s!"http://192.168.1.1/login")
           fresh_state).
  vm_compute; discriminate.
Defined.

Lemma history_counts_agree_with_statuses_witness :
  history_file
    (stored_state
       (Table (DataFrame
                 (map (@entry_row ascii_runtime)
                    [s!"user@example.com"; s!"http://bit.ly/abc";
                     s!"example.com"]))))
  = Some (Table (DataFrame
                   (map (@entry_row ascii_runtime)
                      [s!"user@example.com"; s!"http://bit.ly/abc";
                       s!"example.com"])))
  /\ @read_csv plain_toolkit
       (Table (DataFrame
                 (map (@entry_row ascii_runtime)
                    [s!"user@example.com"; s!"http://bit.ly/abc";
                     s!"example.com"])))
     = Return (DataFrame
                 (map (@entry_row ascii_runtime)
                    [s!"user@example.com"; s!"http://bit.ly/abc";
                     s!"example.com"]))
  /\ exists w',
      @History.show_history plain_toolkit
        (stored_state
           (Table (DataFrame
                     (map (@entry_row ascii_runtime)
                        [s!"user@example.com"; s!"http://bit.ly/abc";
                         s!"example.com"]))))
      = (w', Return tt)
      /\ safe_card w'
         = @count_status ascii_runtime SAFE
             [s!"user@example.com"; s!"http://bit.ly/abc"; s!"example.com"]
      /\ risk_card w'
         = @count_status ascii_runtime POTENTIAL
             [s!"user@example.com"; s!"http://bit.ly/abc"; s!"example.com"]
      /\ suspicious_card w'
         = @count_status ascii_runtime SUSPICIOUS
             [s!"user@example.com"; s!"http://bit.ly/abc"; s!"example.com"]
      /\ results w'
         = results
             (stored_state
                (Table (DataFrame
                          (map (@entry_row ascii_runtime)
                             [s!"user@example.com"; s!"http://bit.ly/abc";
                              s!"example.com"]))))
      /\ history_file w'
         = history_file
             (stored_state
                (Table (DataFrame
                          (map (@entry_row ascii_runtime)
                             [s!"user@example.com"; s!"http://bit.ly/abc";
                              s!"example.com"])))).
Proof.
  split; [reflexivity|]. split; [vm_compute; reflexivity|].
  apply (@history_counts_agree_with_statuses ascii_runtime plain_toolkit
           (stored_state
              (Table (DataFrame
                        (map (@entry_row ascii_runtime)
                           [s!"user@example.com"; s!"http://bit.ly/abc";
                            s!"example.com"]))))
           (Table (DataFrame
                     (map (@entry_row ascii_runtime)
                        [s!"user@example.com"; s!"http://bit.ly/abc";
                         s!"example.com"])))
           [s!"user@example.com"; s!"http://bit.ly/abc"; s!"example.com"]).
  - reflexivity.
  - vm_compute; reflexivity.
Defined.

(** X20 on a file that cannot be read, and on the file that a run on NA
    wrote. *)
Lemma show_history_catches_nothing_witness :
  (history_file (stored_state Unreadable) = Some Unreadable
   /\ @read_csv plain_toolkit Unreadable = Raise ReadError
   /\ @History.show_history plain_toolkit (stored_state Unreadable)
      = (stored_state Unreadable, Raise ReadError))
  /\ (history_file
        (stored_state (Table (DataFrame [@entry_row ascii_runtime s!"NA"])))
      = Some (Table (DataFrame [@entry_row ascii_runtime s!"NA"]))
      /\ @read_csv plain_toolkit
           (Table (DataFrame [@entry_row ascii_runtime s!"NA"]))
         = Return [ {| Input_cell := Missing;
                       Issues_cell := Text s!"Invalid URL format";
                       Score_cell := Int 5;
                       Status_cell := Text (status_text SUSPICIOUS) |} ]
      /\ @History.show_history plain_toolkit
           (stored_state (Table (DataFrame [@entry_row ascii_runtime s!"NA"])))
         = (stored_state (Table (DataFrame [@entry_row ascii_runtime s!"NA"])),
            Raise TypeError)).
Proof.
  split.
  - split; [reflexivity|]. split; [reflexivity|].
    apply (proj1 (@show_history_catches_nothing plain_toolkit
                    (stored_state Unreadable) Unreadable eq_refl)
             ReadError).
    reflexivity.
  - split; [reflexivity|]. split; [vm_compute; reflexivity|].
    apply (proj2 (@show_history_catches_nothing plain_toolkit
                    (stored_state
                       (Table (DataFrame [@entry_row ascii_runtime s!"NA"])))
                    (Table (DataFrame [@entry_row ascii_runtime s!"NA"]))
                    eq_refl)
             [ {| Input_cell := Missing;
                  Issues_cell := Text s!"Invalid URL format";
                  Score_cell := Int 5;
                  Status_cell := Text (status_text SUSPICIOUS) |} ]
             {| Input_cell := Missing;
                Issues_cell := Text s!"Invalid URL format";
                Score_cell := Int 5;
                Status_cell := Text (status_text SUSPICIOUS) |}).
    + vm_compute; reflexivity.
    + left; reflexivity.
    + left; reflexivity.
Defined.

Lemma show_history_raises_after_a_run_on_NA_witness :
  history_file fresh_state = None
  /\ history_writable fresh_state = true
  /\ @read_back plain_toolkit (DataFrame [@entry_row ascii_runtime s!"NA"])
     = Return [ {| Input_cell := Missing;
                   Issues_cell := Text s!"Invalid URL format";
                   Score_cell := Int 5;
                   Status_cell := Text (status_text SUSPICIOUS) |} ]
  /\ exists w1,
      @analyze_input ascii_runtime plain_toolkit s!"NA" fresh_state
      = (w1, Return tt)
      /\ results w1 = [@entry_row ascii_runtime s!"NA"]
      /\ @History.show_history plain_toolkit w1 = (w1, Raise TypeError).
Proof.
  split; [reflexivity|]. split; [reflexivity|].
  split; [vm_compute; reflexivity|].
  apply (@show_history_raises_after_a_run_on_NA ascii_runtime plain_toolkit
           fresh_state
           {| Input_cell := Missing;
              Issues_cell := Text s!"Invalid URL format";
              Score_cell := Int 5;
              Status_cell := Text (status_text SUSPICIOUS) |}).
  - reflexivity.
  - reflexivity.
  - vm_compute; reflexivity.
  - reflexivity.
Defined.

Lemma export_after_history_writes_the_last_run_witness :
  @Space.strip ascii_runtime s!"user@example.com" <> []
  /\ s!"out.csv" <> []
  /\ export_csv s!"out.csv"
       (fst (@analyze_input ascii_runtime plain_toolkit s!"user@example.com"
               (stored_state (Table [frame_of earlier_row]))))
     = Some (s!"out.csv",
             Table (DataFrame
                      (map (@entry_row ascii_runtime)
                         (@entries ascii_runtime
                            (@Space.strip ascii_runtime s!"user@example.com")))))
  /\ export_csv s!"out.csv"
       (fst (@History.show_history plain_toolkit
               (fst (@analyze_input ascii_runtime plain_toolkit
                       s!"user@example.com"
                       (stored_state (Table [frame_of earlier_row]))))))
     = Some (s!"out.csv",
             Table (DataFrame
                      (map (@entry_row ascii_runtime)
                         (@entries ascii_runtime
                            (@Space.strip ascii_runtime s!"user@example.com"))))).
Proof.
  split; [vm_compute; discriminate|]. split; [vm_compute; discriminate|].
  apply (@export_after_history_writes_the_last_run ascii_runtime plain_toolkit
           (stored_state (Table [frame_of earlier_row]))
           s!"user@example.com" s!"out.csv").
  - vm_compute; discriminate.
  - vm_compute; discriminate.
Defined.

Lemma history_append_keeps_rows_read_back_witness :
  history_file (stored_state (Table [frame_of earlier_row]))
  = Some (Table [frame_of earlier_row])
  /\ history_writable (stored_state (Table [frame_of earlier_row])) = true
  /\ @read_csv plain_toolkit (Table [frame_of earlier_row])
     = Return [frame_of earlier_row]
  /\ @Space.strip ascii_runtime s!"user@example.com" <> []
  /\ @Space.strip ascii_runtime s!"http://192.168.1.1/login" <> []
  /\ @read_back plain_toolkit
       ([frame_of earlier_row]
        ++ DataFrame
             (map (@entry_row ascii_runtime)
                (@entries ascii_runtime
                   (@Space.strip ascii_runtime s!"user@example.com"))))
     = Return ([frame_of earlier_row]
               ++ DataFrame [@entry_row ascii_runtime s!"user@example.com"])
  /\ exists wA wB,
      @analyze_input ascii_runtime plain_toolkit s!"user@example.com"
        (stored_state (Table [frame_of earlier_row])) = (wA, Return tt)
      /\ @analyze_input ascii_runtime plain_toolkit s!"http://192.168.1.1/login" wA
         = (wB, Return tt)
      /\ results wA
         = map (@entry_row ascii_runtime)
             (@entries ascii_runtime (@Space.strip ascii_runtime s!"user@example.com"))
      /\ results wB
         = map (@entry_row ascii_runtime)
             (@entries ascii_runtime
                (@Space.strip ascii_runtime s!"http://192.168.1.1/login"))
      /\ history_file wA
         = Some (Table ([frame_of earlier_row] ++ DataFrame (results wA)))
      /\ history_file wB
         = Some (Table (([frame_of earlier_row]
                         ++ DataFrame [@entry_row ascii_runtime s!"user@example.com"])
                        ++ DataFrame (results wB)))
      /\ (([frame_of earlier_row]
           ++ DataFrame [@entry_row ascii_runtime s!"user@example.com"])
          = [frame_of earlier_row] ++ DataFrame (results wA) ->
          history_file wB
          = Some (Table ([frame_of earlier_row] ++ DataFrame (results wA)
                         ++ DataFrame (results wB)))).
Proof.
  split; [reflexivity|]. split; [reflexivity|].
  split; [vm_compute; reflexivity|].
  split; [vm_compute; discriminate|]. split; [vm_compute; discriminate|].
  split; [vm_compute; reflexivity|].
  apply (@history_append_keeps_rows_read_back ascii_runtime plain_toolkit
           (stored_state (Table [frame_of earlier_row]))
           (Table [frame_of earlier_row]) [frame_of earlier_row]
           ([frame_of earlier_row]
            ++ DataFrame [@entry_row ascii_runtime s!"user@example.com"])
           s!"user@example.com" s!"http://192.168.1.1/login").
  - reflexivity.
  - reflexivity.
  - vm_compute; reflexivity.
  - vm_compute; discriminate.
  - vm_compute; discriminate.
  - vm_compute; reflexivity.
Defined.

Lemma next_slide_stays_in_range_witness :
  Slideshow.images
    {| Slideshow.images := Some [7; 8; 9]; Slideshow.slideshow_index := 5 |}
  = Some [7; 8; 9]
  /\ [7; 8; 9] <> []
  /\ exists i pix,
      Slideshow.next_slide
        {| Slideshow.images := Some [7; 8; 9]; Slideshow.slideshow_index := 5 |}
      = Slideshow.Fades
          {| Slideshow.images := Some [7; 8; 9]; Slideshow.slideshow_index := i |}
          pix
      /\ i = (Slideshow.slideshow_index
                {| Slideshow.images := Some [7; 8; 9];
                   Slideshow.slideshow_index := 5 |} + 1)
             mod Z.of_nat (List.length [7; 8; 9])
      /\ 0 <= i < Z.of_nat (List.length [7; 8; 9])
      /\ nth_error [7; 8; 9] (Z.to_nat i) = Some pix.
Proof.
  split; [reflexivity|]. split; [discriminate|].
  apply (next_slide_stays_in_range Z
           {| Slideshow.images := Some [7; 8; 9]; Slideshow.slideshow_index := 5 |}
           [7; 8; 9]).
  - reflexivity.
  - discriminate.
Defined.

Lemma slideshow_goes_round_witness :
  Slideshow.images
    {| Slideshow.images := Some [7; 8; 9]; Slideshow.slideshow_index := 1 |}
  = Some [7; 8; 9]
  /\ 0 <= Slideshow.slideshow_index
            {| Slideshow.images := Some [7; 8; 9]; Slideshow.slideshow_index := 1 |}
     < Z.of_nat (List.length [7; 8; 9])
  /\ (4%nat <> O ->
      Slideshow.slideshow_index
        (ticks 4 {| Slideshow.images := Some [7; 8; 9];
                    Slideshow.slideshow_index := 1 |})
      = (Slideshow.slideshow_index
           {| Slideshow.images := Some [7; 8; 9]; Slideshow.slideshow_index := 1 |}
         + Z.of_nat 4) mod Z.of_nat (List.length [7; 8; 9]))
  /\ ticks (List.length [7; 8; 9])
       {| Slideshow.images := Some [7; 8; 9]; Slideshow.slideshow_index := 1 |}
     = {| Slideshow.images := Some [7; 8; 9]; Slideshow.slideshow_index := 1 |}.
Proof.
  split; [reflexivity|]. split; [simpl; lia|].
  apply (slideshow_goes_round Z
           {| Slideshow.images := Some [7; 8; 9]; Slideshow.slideshow_index := 1 |}
           [7; 8; 9] 4).
  - reflexivity.
  - simpl; lia.
Defined.

Lemma keywords_match_in_any_case_witness :
  s!"http://x/LoGiN" = s!"http://x/" ++ s!"LoGiN" ++ []
  /\ map Str.ascii_tolower s!"LoGiN" = s!"login"
  /\ (In "login"%string url_keyword_list
      -> In s!"Suspicious keywords" (snd (@check_url ascii_runtime s!"http://x/LoGiN")))
  /\ (In "login"%string lookalike_list
      -> In s!"Possible phishing domain"
           (snd (@check_url ascii_runtime s!"http://x/LoGiN")))
  /\ (In "login"%string email_keyword_list
      -> In s!"Suspicious keywords"
           (snd (@check_email ascii_runtime s!"http://x/LoGiN"))).
Proof.
  split; [reflexivity|]. split; [reflexivity|].
  apply (@keywords_match_in_any_case ascii_runtime s!"http://x/LoGiN" "login"
           s!"http://x/" s!"LoGiN" []).
  - reflexivity.
  - reflexivity.
Defined.

Lemma malformed_url_needs_bracket_or_non_ascii_witness :
  In s!"Malformed URL" (snd (@check_url ascii_runtime s!"http://[abc"))
  /\ (In c!"[" s!"http://[abc"
      \/ In c!"]" s!"http://[abc"
      \/ exists c, In c s!"http://[abc" /\ Str.isascii c = false).
Proof.
  split; [is_in|].
  apply (@malformed_url_needs_bracket_or_non_ascii ascii_runtime s!"http://[abc").
  is_in.
Defined.

Lemma ip_and_shortener_exclude_invalid_format_witness :
  (In s!"Contains IP address"
     (snd (@check_url ascii_runtime s!"http://192.168.1.1/login"))
   \/ In s!"Shortened URL"
        (snd (@check_url ascii_runtime s!"http://192.168.1.1/login")))
  /\ ~ In s!"Invalid URL format"
        (snd (@check_url ascii_runtime s!"http://192.168.1.1/login")).
Proof.
  split; [left; is_in|].
  apply (@ip_and_shortener_exclude_invalid_format ascii_runtime
           s!"http://192.168.1.1/login").
  left. is_in.
Defined.
